(** * removeAutoNumbering: a shallow embedding and its verified properties

    The development follows the layout of the repository:

    - [Py]            the few Python built-ins the code relies on
                      (str.strip, str.lower, str.startswith, os.path.splitext, ...);
    - [Re]            a backtracking matcher for the fragment of Python's [re]
                      that the program's pattern needs;
    - [Converter]     converter.py: the question heuristic, the numbering
                      normaliser and [process_doc];
    - [RmAutoNum]     rmAutoNum.py, the command-line twin of converter.py;
    - [App]           app.py: file-name sanitising, the job registry, the
                      single worker and the HTTP handlers;
    - [QuestionPaper] convertedDocx/create_question_paper.py: the text of
                      a table and [extract_question];
    - [QuestionPaperAssembly]
                      the same file: the loop of [create_question_paper].

    Word, the file system and COM are outside the program: what they answer
    is a parameter of the definitions that call them. The modules named
    ...Spec hold the vocabulary of the statements, the modules named ...Facts
    and ...More the lemmas and theorems.

    Text is a sequence of 8-bit characters, read as the code points 0..255 of
    Python's [str]; the character tests below are Python's on that range. *)

From Stdlib Require Import ZArith NArith List Ascii String Bool Lia.
From Stdlib Require Import DecimalString DecimalPos DecimalZ.
From stdpp Require Import base option list gmap strings.
Import ListNotations.

Local Open Scope Z_scope.

(** Python [str] values. String literals are read as character lists. *)
Abbreviation str := (list ascii).
Coercion list_ascii_of_string : string >-> list.

(* ===================================================================== *)
(** * Python built-ins *)
(* ===================================================================== *)
Module Py.

Definition code (c : ascii) : N := N_of_ascii c.

Definition between (lo hi : N) (c : ascii) : bool :=
  ((lo <=? code c) && (code c <=? hi))%N.

(** [str.isspace] on one character, which is also what [\s] matches:
    TAB LF VT FF CR, FS GS RS US, SPACE, NEL and NBSP. *)
Definition isspace (c : ascii) : bool :=
  between 9 13 c || between 28 32 c || (code c =? 133)%N || (code c =? 160)%N.

(** Decimal digits (what [\d] matches). *)
Definition isdigit (c : ascii) : bool := between 48 57 c.

(** [str.lower] on one character: A-Z, and the Latin-1 capitals but the
    multiplication sign. *)
Definition lower_char (c : ascii) : ascii :=
  if between 65 90 c || between 192 214 c || between 216 222 c
  then ascii_of_N (code c + 32)
  else c.

Definition lower (s : str) : str := map lower_char s.

Fixpoint dropwhile (p : ascii -> bool) (s : str) : str :=
  match s with
  | c :: s' => if p c then dropwhile p s' else s
  | [] => []
  end.

(** [s.lstrip(chars)], [s.rstrip(chars)] with the set of characters given as
    a test. *)
Definition lstrip_by (p : ascii -> bool) (s : str) : str := dropwhile p s.
Definition rstrip_by (p : ascii -> bool) (s : str) : str :=
  rev (dropwhile p (rev s)).

(** [s.strip()]: white space removed at both ends. *)
Definition strip (s : str) : str := rstrip_by isspace (lstrip_by isspace s).

Definition eqc (a b : ascii) : bool := Ascii.eqb a b.

(** [c in chars]. *)
Definition char_in (chars : str) (c : ascii) : bool := existsb (eqc c) chars.

(** [s.rstrip(chars)]. *)
Definition rstrip (s chars : str) : str := rstrip_by (char_in chars) s.

Fixpoint startswith (s p : str) {struct p} : bool :=
  match p, s with
  | [], _ => true
  | _ :: _, [] => false
  | a :: p', b :: s' => eqc a b && startswith s' p'
  end.

Definition endswith (s p : str) : bool := startswith (rev s) (rev p).

(** [s.replace(c, empty)] for a one-character [c]. *)
Definition remove_char (c : ascii) (s : str) : str :=
  List.filter (fun x => negb (eqc x c)) s.

(** [sep.join(parts)]. *)
Fixpoint join (sep : str) (parts : list str) : str :=
  match parts with
  | [] => []
  | [x] => x
  | x :: rest => x ++ sep ++ join sep rest
  end.

(** [s.rfind(c)] for a one-character [c], on positions counted from 0;
    [-1] when [c] does not occur. *)
Fixpoint rfind_from (c : ascii) (s : str) (i : Z) (found : Z) : Z :=
  match s with
  | [] => found
  | x :: s' => rfind_from c s' (i + 1) (if eqc x c then i else found)
  end.
Definition rfind (s : str) (c : ascii) : Z := rfind_from c s 0 (-1).

(** The slices [p[:i]] and [p[i:]] for [0 <= i]. *)
Definition upto (s : str) (i : Z) : str := firstn (Z.to_nat i) s.
Definition from (s : str) (i : Z) : str := skipn (Z.to_nat i) s.

(** [genericpath._splitext]: the extension starts at the last dot of the last
    path component, unless only dots precede it there. *)
Fixpoint splitext_scan (p : str) (dotIndex : Z) (fuel : nat) (filenameIndex : Z)
  : str * str :=
  match fuel with
  | O => (p, [])
  | S fuel' =>
      if filenameIndex <? dotIndex then
        if negb (startswith (from p filenameIndex) ".")
        then (upto p dotIndex, from p dotIndex)
        else splitext_scan p dotIndex fuel' (filenameIndex + 1)
      else (p, [])
  end.

Definition _splitext (p : str) (sep : ascii) (altsep : option ascii) (extsep : ascii)
  : str * str :=
  let sepIndex := rfind p sep in
  let sepIndex :=
    match altsep with
    | Some a => Z.max sepIndex (rfind p a)
    | None => sepIndex
    end in
  let dotIndex := rfind p extsep in
  if sepIndex <? dotIndex
  then splitext_scan p dotIndex (S (length p)) (sepIndex + 1)
  else (p, []).

(** [os.path.splitext] of the platform the program runs on (it drives Word
    through COM): ntpath. On a name without separators posixpath agrees. *)
Definition splitext (p : str) : str * str :=
  _splitext p "\"%char (Some "/"%char) "."%char.

(** [posixpath.basename]. *)
Definition posix_basename (p : str) : str := from p (rfind p "/"%char + 1).

End Py.

(* ===================================================================== *)
(** * The fragment of Python's [re] the program uses *)
(* ===================================================================== *)
Module Re.

(** Patterns: anchors, one character of a class, a greedy [+] or [?] over a
    class, sequence, and a capturing group. Groups do not nest in the
    program's patterns, so they are numbered in the order they close. *)
Inductive regex :=
| Bol
| Eol
| Class (p : ascii -> bool)
| ClassPlus (p : ascii -> bool)
| ClassOpt (p : ascii -> bool)
| Seq (r1 r2 : regex)
| Group (r : regex).

(** Greedy repetition with backtracking: the longest run is tried first, and a
    shorter one only when the rest of the pattern fails after it. *)
Fixpoint star_k {A} (p : ascii -> bool) (s : str) (k : str -> option A) : option A :=
  match s with
  | c :: s' =>
      if p c then
        match star_k p s' k with
        | Some r => Some r
        | None => k s
        end
      else k s
  | [] => k []
  end.

Definition plus_k {A} (p : ascii -> bool) (s : str) (k : str -> option A) : option A :=
  match s with
  | c :: s' => if p c then star_k p s' k else None
  | [] => None
  end.

Definition opt_k {A} (p : ascii -> bool) (s : str) (k : str -> option A) : option A :=
  match s with
  | c :: s' =>
      if p c then
        match k s' with
        | Some r => Some r
        | None => k s
        end
      else k s
  | [] => k []
  end.

Definition newline : ascii := "010"%char.

(** [$] matches at the end of the text and before a newline that ends it. *)
Definition at_eol (s : str) : bool :=
  match s with
  | [] => true
  | [c] => Py.eqc c newline
  | _ => false
  end.

(** [m n r s caps k]: match [r] at the front of [s], the text still to be
    read of an input of length [n], then go on with [k]. *)
Fixpoint m (n : nat) (r : regex) (s : str) (caps : list str)
  (k : str -> list str -> option (list str)) : option (list str) :=
  match r with
  | Bol => if Nat.eqb (length s) n then k s caps else None
  | Eol => if at_eol s then k s caps else None
  | Class p =>
      match s with
      | c :: s' => if p c then k s' caps else None
      | [] => None
      end
  | ClassPlus p => plus_k p s (fun s' => k s' caps)
  | ClassOpt p => opt_k p s (fun s' => k s' caps)
  | Seq r1 r2 => m n r1 s caps (fun s' caps' => m n r2 s' caps' k)
  | Group r =>
      m n r s caps
        (fun s' caps' => k s' (caps' ++ [firstn (length s - length s') s]))
  end.

(** [re.match(r, text)], returning [m.groups()]. *)
Definition re_match (r : regex) (text : str) : option (list str) :=
  m (length text) r text [] (fun _ caps => Some caps).

(** [.] matches every character but a newline. *)
Definition dot (c : ascii) : bool := negb (Py.eqc c newline).

End Re.

(* ===================================================================== *)
(** * converter.py *)
(* ===================================================================== *)
Module Converter.

(** Word's [WdListType] enumeration (win32com.client.constants). *)
Inductive WdListType :=
| wdListNoNumbering
| wdListListNumOnly
| wdListBullet
| wdListSimpleNumbering
| wdListOutlineNumbering
| wdListMixedNumbering
| wdListPictureBullet.

Definition WdListType_eqb (a b : WdListType) : bool :=
  match a, b with
  | wdListNoNumbering, wdListNoNumbering
  | wdListListNumOnly, wdListListNumOnly
  | wdListBullet, wdListBullet
  | wdListSimpleNumbering, wdListSimpleNumbering
  | wdListOutlineNumbering, wdListOutlineNumbering
  | wdListMixedNumbering, wdListMixedNumbering
  | wdListPictureBullet, wdListPictureBullet => true
  | _, _ => false
  end.

(** [p.Range.ListFormat]. Reading a property through COM, or the constant
    it is compared with, may raise; [None] stands for a read that raises. *)
Record ListFormat := {
  ListType : option WdListType;
  ListLevelNumber : option Z
}.

(** A paragraph of the open document, as far as the program reads and writes
    it. Indents are lengths in Word's unit; only the value zero matters. *)
Record Paragraph := {
  Text : str;
  Format : ListFormat;
  LeftIndent : Z;
  FirstLineIndent : Z
}.

Definition set_LeftIndent (v : Z) (p : Paragraph) : Paragraph :=
  {| Text := Text p; Format := Format p;
     LeftIndent := v; FirstLineIndent := FirstLineIndent p |}.

Definition set_FirstLineIndent (v : Z) (p : Paragraph) : Paragraph :=
  {| Text := Text p; Format := Format p;
     LeftIndent := LeftIndent p; FirstLineIndent := v |}.

Definition set_Text (t : str) (p : Paragraph) : Paragraph :=
  {| Text := t; Format := Format p;
     LeftIndent := LeftIndent p; FirstLineIndent := FirstLineIndent p |}.

(** [doc.Paragraphs]: [Item(i)] is the element at position [i - 1]. *)
Abbreviation Document := (list Paragraph).

Definition is_question_paragraph (p : Paragraph) : bool :=
  let text := Py.strip (Text p) in
  if Py.startswith (Py.lower text) "answer"
     || Py.startswith (Py.lower text) "explanation"
  then false
  else
    let lf := Format p in
    match ListType lf with
    | None => false
    | Some lt =>
        let is_list := negb (WdListType_eqb lt wdListNoNumbering) in
        let is_numbered :=
          WdListType_eqb lt wdListOutlineNumbering
          || WdListType_eqb lt wdListSimpleNumbering
          || WdListType_eqb lt wdListListNumOnly in
        match ListLevelNumber lf with
        | None => false
        | Some level =>
            let at_top_level := (level =? 1) in
            is_list && is_numbered && at_top_level
        end
    end.

(** The pattern [^(\d+[\.\)]\s?)(.+)$]. *)
Definition lead_rest : Re.regex :=
  Re.Seq Re.Bol
    (Re.Seq
       (Re.Group
          (Re.Seq (Re.ClassPlus Py.isdigit)
             (Re.Seq (Re.Class (Py.char_in ".)")) (Re.ClassOpt Py.isspace))))
       (Re.Seq (Re.Group (Re.ClassPlus Re.dot)) Re.Eol)).

Definition CR : ascii := "013"%char.

(** The text written back by the space normalisation, from the text [txt]
    read from the paragraph's range. [None]: nothing is written. *)
Definition spaced_text (txt : str) : option str :=
  let core := if Py.endswith txt [CR] then removelast txt else txt in
  match Re.re_match lead_rest core with
  | Some [lead; rest] =>
      let core :=
        if negb (Py.endswith lead " ") then lead ++ " " ++ rest else core in
      Some (core ++ (if Py.endswith txt [CR] then [CR] else []))
  | _ => None
  end.

(** Calls made to COM and to Word, in the order [process_doc] makes them. *)
Inductive ComCall :=
| CoInitialize
| Dispatch
| Open (path : str)
| FieldsUpdate
| SaveAs (path : str)
| Close
| Quit
| CoUninitialize.

(** What the program sees of its host: the documents stored by path, whether
    Word can be started, and the COM calls made so far (oldest first). *)
Record World := {
  files : gmap str Document;
  word_installed : bool;
  com_log : list ComCall
}.

Definition call (c : ComCall) (w : World) : World :=
  {| files := files w; word_installed := word_installed w;
     com_log := com_log w ++ [c] |}.

Definition store (path : str) (doc : Document) (w : World) : World :=
  {| files := <[path := doc]> (files w); word_installed := word_installed w;
     com_log := com_log w |}.

Definition remove (path : str) (w : World) : World :=
  {| files := delete path (files w); word_installed := word_installed w;
     com_log := com_log w |}.

(** [os.path.exists]. *)
Definition path_exists (w : World) (path : str) : bool :=
  bool_decide (is_Some (files w !! path)).

(** The exceptions the program tells apart. *)
Inductive exn :=
| FileNotFoundError (msg : str)
| Exception (msg : str).

(** [str(e)]. *)
Definition exn_message (e : exn) : str :=
  match e with
  | FileNotFoundError msg => msg
  | Exception msg => msg
  end.

Section WithWord.

(** What Word does on [ListFormat.ConvertNumbersToText()]: the paragraph as it
    is afterwards, or [None] when the call raises. *)
Variable ConvertNumbersToText : Paragraph -> option Paragraph.

(** Whether Word refuses the assignment [p.LeftIndent = 0], and the
    assignment [p.FirstLineIndent = 0], for the paragraph as it is then:
    [true] when the assignment raises, which leaves the paragraph as it
    was. *)
Variables LeftIndent_raises FirstLineIndent_raises : Paragraph -> bool.

(** [int((processed / total) * 100)], computed in floating point. *)
Variable percent : nat -> nat -> Z.

(** What Word does on [doc.Fields.Update()]: the document afterwards, or
    [None] when the call raises. *)
Variable Fields_Update : Document -> option Document.

(** [os.path.abspath]. *)
Variable abspath : str -> str.

(** The text of the error COM raises when a call fails. *)
Variable com_error : ComCall -> str.

(** The first [try] of the second loop: the numbering is converted, and a
    call that raises is ignored. *)
Definition numbers_to_text (p : Paragraph) : Paragraph :=
  match ConvertNumbersToText p with
  | Some p' => p'
  | None => p
  end.

(** The second [try] of the second loop: the two assignments in order. The
    first that raises ends the block, and the error is dropped. *)
Definition zero_indents (p : Paragraph) : Paragraph :=
  if LeftIndent_raises p then p
  else
    let p := set_LeftIndent 0 p in
    if FirstLineIndent_raises p then p
    else set_FirstLineIndent 0 p.

(** The body of the second loop, for one target paragraph: the numbering
    is converted, the indents are set, and the text is respaced. *)
Definition convert_question (p : Paragraph) : Paragraph :=
  let p := numbers_to_text p in
  let p := zero_indents p in
  match spaced_text (Text p) with
  | Some t => set_Text t p
  | None => p
  end.

(** The first loop: the positions of the candidates. *)
Definition targets (doc : Document) : list nat :=
  List.filter (fun i =>
            match doc !! i with
            | Some p => is_question_paragraph p
            | None => false
            end)
         (seq 0 (length doc)).

(** The values handed to [progress], in order. *)
Definition progress_calls (total : nat) : list Z :=
  if (0 <? total)%nat then map (fun processed => percent processed total) (seq 1 total)
  else [].

(** [convert_questions_to_text(doc, progress)]: the document afterwards and
    the calls made to [progress]. *)
Definition convert_questions_to_text (doc : Document) : Document * list Z :=
  let ts := targets doc in
  (fold_left (fun d i => alter convert_question i d) ts doc,
   progress_calls (length ts)).

(** [process_doc(input_path, output_path, visible, progress)]: the world
    afterwards, the calls made to [progress] ([with_progress] tells whether a
    callback was passed), and the path returned or the exception raised.
    The [finally] block closes what was opened. *)
Definition process_doc (w : World) (input_path : str) (output_path : option str)
    (with_progress : bool) : World * list Z * (exn + str) :=
  if negb (path_exists w input_path)
  then (w, [], inl (FileNotFoundError ("File not found: " ++ input_path)))
  else
    let w := call CoInitialize w in
    let '(w, calls, result, word, doc) :=
      if word_installed w then
        let w := call Dispatch w in
        let w := call (Open (abspath input_path)) w in
        match files w !! abspath input_path with
        | Some doc =>
            let w := call FieldsUpdate w in
            let doc := match Fields_Update doc with Some d => d | None => doc end in
            let '(doc, calls) := convert_questions_to_text doc in
            let output_path :=
              match output_path with
              | Some (c :: o) => c :: o
              | _ => (Py.splitext input_path).1 ++ "_numbered_plain.docx"
              end in
            let w := call (SaveAs (abspath output_path)) w in
            let w := store (abspath output_path) doc w in
            (w, if with_progress then calls else [], inr (abspath output_path),
             true, true)
        | None =>
            (w, [], inl (Exception (com_error (Open (abspath input_path)))),
             true, false)
        end
      else (w, [], inl (Exception (com_error Dispatch)), false, false) in
    let w := if doc : bool then call Close w else w in
    let w := if word : bool then call Quit w else w in
    let w := call CoUninitialize w in
    (w, calls, result).

End WithWord.

End Converter.

(** rmAutoNum.py: the command-line twin of converter.py. *)
Module RmAutoNum.

Import Converter.

Definition is_question_paragraph (p : Paragraph) : bool :=
  let text := Py.strip (Text p) in
  if Py.startswith (Py.lower text) "answer"
     || Py.startswith (Py.lower text) "explanation"
  then false
  else
    let lf := Format p in
    match ListType lf with
    | None => false
    | Some lt =>
        let is_list := negb (WdListType_eqb lt wdListNoNumbering) in
        let is_numbered :=
          WdListType_eqb lt wdListOutlineNumbering
          || WdListType_eqb lt wdListSimpleNumbering
          || WdListType_eqb lt wdListListNumOnly in
        match ListLevelNumber lf with
        | None => false
        | Some level =>
            let at_top_level := (level =? 1) in
            is_list && is_numbered && at_top_level
        end
    end.

Section WithWord.

Variable ConvertNumbersToText : Paragraph -> option Paragraph.
Variables LeftIndent_raises FirstLineIndent_raises : Paragraph -> bool.

(** The body of the second loop. Each [try] drops the error of a call that
    raises; in the second, the first assignment that raises ends the
    block. *)
Definition convert_question (p : Paragraph) : Paragraph :=
  let p := match ConvertNumbersToText p with Some p' => p' | None => p end in
  let p :=
    if LeftIndent_raises p then p
    else
      let p := set_LeftIndent 0 p in
      if FirstLineIndent_raises p then p
      else set_FirstLineIndent 0 p in
  match spaced_text (Text p) with
  | Some t => set_Text t p
  | None => p
  end.

Definition convert_questions_to_text (doc : Document) : Document :=
  fold_left (fun d i => alter convert_question i d)
    (List.filter (fun i =>
               match doc !! i with
               | Some p => is_question_paragraph p
               | None => false
               end)
            (seq 0 (length doc)))
    doc.

End WithWord.

End RmAutoNum.

(* ===================================================================== *)
(** * app.py *)
(* ===================================================================== *)
Module App.

Import Converter.

Definition ALLOWED_EXTENSIONS : list str := ["docx" : str].

(** [filename.rsplit(".", 1)[1]] for a name with a dot: what follows the
    last dot. *)
Definition after_last_dot (filename : str) : str :=
  Py.from filename (Py.rfind filename "."%char + 1).

Definition allowed_file (filename : str) : bool :=
  Py.char_in filename "."%char
  && bool_decide (Py.lower (after_last_dot filename) ∈ ALLOWED_EXTENSIONS).

Definition quote : ascii := "034"%char.
Definition LF : ascii := "010"%char.
Definition TAB : ascii := "009"%char.

(** The class of the first substitution: less-than, greater-than, colon,
    double quote, slash, backslash, bar, question mark, star, and the control
    characters 0x00 to 0x1F. *)
Definition forbidden (c : ascii) : bool :=
  Py.char_in ("<>:" ++ [quote] ++ "/\|?*") c || Py.between 0 31 c.

(** [re.sub] of a character class by the empty string: its characters are
    dropped. *)
Definition sub_class (cls : ascii -> bool) (s : str) : str :=
  List.filter (fun c => negb (cls c)) s.

Section Sanitize.

(** [os.path.basename]. *)
Variable basename : str -> str.

Definition sanitize_filename_keep_parens (name : str) : str :=
  let base := basename name in
  let base := sub_class forbidden base in
  let base := Py.remove_char TAB (Py.remove_char CR (Py.remove_char LF base)) in
  let base := Py.rstrip base " ." in
  let base := match base with [] => "document.docx" : str | _ => base end in
  let base :=
    if negb (Py.endswith (Py.lower base) ".docx")
    then (Py.splitext base).1 ++ ".docx"
    else base in
  base.

End Sanitize.

Module Status.
Inductive t := queued | processing | done | error.
#[global] Instance eq_dec : EqDecision t.
Proof. solve_decision. Defined.
End Status.

(** A record of [JOBS]. *)
Record Job := {
  status : Status.t;
  filename : str;
  processing_pct : Z;
  final_path : option str;
  error : option str;
  input_path : str;
  output_path : str
}.

Definition set_status (v : Status.t) (j : Job) : Job :=
  {| status := v; filename := filename j; processing_pct := processing_pct j;
     final_path := final_path j; error := error j;
     input_path := input_path j; output_path := output_path j |}.

Definition set_processing_pct (v : Z) (j : Job) : Job :=
  {| status := status j; filename := filename j; processing_pct := v;
     final_path := final_path j; error := error j;
     input_path := input_path j; output_path := output_path j |}.

Definition set_final_path (v : option str) (j : Job) : Job :=
  {| status := status j; filename := filename j; processing_pct := processing_pct j;
     final_path := v; error := error j;
     input_path := input_path j; output_path := output_path j |}.

Definition set_error (v : option str) (j : Job) : Job :=
  {| status := status j; filename := filename j; processing_pct := processing_pct j;
     final_path := final_path j; error := v;
     input_path := input_path j; output_path := output_path j |}.

(** [JOBS[job_id][key] = value], as an update [f] of the record: [None] is
    the KeyError of a missing [job_id]. *)
Definition setitem (job_id : str) (f : Job -> Job) (JOBS : gmap str Job)
  : option (gmap str Job) :=
  match JOBS !! job_id with
  | Some job => Some (<[job_id := f job]> JOBS)
  | None => None
  end.

(** The callback [_run_job] hands to [process_doc]. *)
Definition on_progress (job_id : str) (pct : Z) (JOBS : gmap str Job) : gmap str Job :=
  match JOBS !! job_id with
  | Some job =>
      <[job_id := set_processing_pct (Z.max 0 (Z.min 100 pct)) job]> JOBS
  | None => JOBS
  end.

(** The three locked blocks of [_run_job]. *)
Definition mark_processing (job_id : str) (JOBS : gmap str Job) : option (gmap str Job) :=
  setitem job_id (fun j => set_processing_pct 0 (set_status Status.processing j)) JOBS.

Definition mark_done (job_id final : str) (JOBS : gmap str Job) : option (gmap str Job) :=
  setitem job_id
    (fun j => set_processing_pct 100
                (set_final_path (Some final) (set_status Status.done j)))
    JOBS.

Definition mark_error (job_id : str) (e : exn) (JOBS : gmap str Job) : option (gmap str Job) :=
  setitem job_id
    (fun j => set_error (Some (exn_message e)) (set_status Status.error j))
    JOBS.

(** The record [start] and [start_multi] create. *)
Definition new_job (name input output : str) : Job :=
  {| status := Status.queued; filename := name; processing_pct := 0;
     final_path := None; error := None;
     input_path := input; output_path := output |}.

(** The single worker thread: waiting on the queue, holding a job it has
    taken, inside [process_doc] for it, or dead after an exception that
    nothing caught. *)
Inductive Worker :=
| Waiting
| Picked (job_id : str)
| InProcessDoc (job_id : str)
| Dead.

(** The shared state: [JOBS], [JOB_QUEUE] (next out first) and the worker. *)
Record System := {
  JOBS : gmap str Job;
  JOB_QUEUE : list str;
  worker : Worker
}.

Definition initial : System :=
  {| JOBS := ∅; JOB_QUEUE := []; worker := Waiting |}.

(** [JOBS[job_id] = {...}] under the lock, then [JOB_QUEUE.put(job_id)]. *)
Definition enqueue (job_id name input output : str) (s : System) : System :=
  {| JOBS := <[job_id := new_job name input output]> (JOBS s);
     JOB_QUEUE := JOB_QUEUE s ++ [job_id];
     worker := worker s |}.

Definition with_jobs (J : gmap str Job) (wk : Worker) (s : System) : System :=
  {| JOBS := J; JOB_QUEUE := JOB_QUEUE s; worker := wk |}.

(** The atomic steps of the system. A job id comes from [uuid.uuid4()], so
    it is one no job has yet. Inside [process_doc] the worker may report any
    percentage and may return a path or raise. *)
Inductive step : System -> System -> Prop :=
| step_enqueue s job_id name input output :
    JOBS s !! job_id = None ->
    step s (enqueue job_id name input output s)
| step_get s job_id q :
    worker s = Waiting ->
    JOB_QUEUE s = job_id :: q ->
    step s {| JOBS := JOBS s; JOB_QUEUE := q;
              worker := if JOBS s !! job_id is Some _ then Picked job_id else Waiting |}
| step_processing s job_id J :
    worker s = Picked job_id ->
    mark_processing job_id (JOBS s) = Some J ->
    step s (with_jobs J (InProcessDoc job_id) s)
| step_key_error s job_id :
    worker s = Picked job_id ->
    mark_processing job_id (JOBS s) = None ->
    step s (with_jobs (JOBS s) Dead s)
| step_progress s job_id pct :
    worker s = InProcessDoc job_id ->
    step s (with_jobs (on_progress job_id pct (JOBS s)) (InProcessDoc job_id) s)
| step_done s job_id final J :
    worker s = InProcessDoc job_id ->
    mark_done job_id final (JOBS s) = Some J ->
    step s (with_jobs J Waiting s)
| step_error s job_id e J :
    worker s = InProcessDoc job_id ->
    mark_error job_id e (JOBS s) = Some J ->
    step s (with_jobs J Waiting s).

(** A run of the system, newest state first. *)
Inductive run : list System -> Prop :=
| run_start : run [initial]
| run_step s s' past : run (s :: past) -> step s s' -> run (s' :: s :: past).

(** The status a job id has in a state, if it names a job there. *)
Definition status_of (job_id : str) (s : System) : option Status.t :=
  status <$> JOBS s !! job_id.

(** The statuses a job id goes through along a run (newest first), a value
    being listed once for as long as it does not change. *)
Fixpoint status_history (job_id : str) (states : list System) : list (option Status.t) :=
  match states with
  | [] => []
  | s' :: past =>
      match past with
      | [] => [status_of job_id s']
      | s :: _ =>
          if bool_decide (status_of job_id s' = status_of job_id s)
          then status_history job_id past
          else status_of job_id s' :: status_history job_id past
      end
  end.

(** What the host provides to the handlers. *)
Record Host := {
  basename : str -> str;
  join : str -> str -> str;
  abspath : str -> str;
  project_root : str;
  ConvertNumbersToText : Paragraph -> option Paragraph;
  LeftIndent_raises : Paragraph -> bool;
  FirstLineIndent_raises : Paragraph -> bool;
  percent : nat -> nat -> Z;
  Fields_Update : Document -> option Document;
  com_error : ComCall -> str
}.

Module FileStorage.
(** An uploaded file: its name and the document it holds. *)
Record t := { filename : str; stream : Document }.
End FileStorage.

(** [request.files], for the two keys the handlers read. *)
Record Request := {
  file : option FileStorage.t;
  files_list : list FileStorage.t
}.

Inductive Body :=
| error_body (msg : str)
| job_body (job_id name : str)
| jobs_body (jobs : list (str * str))
| progress_body (st : Status.t) (pct : Z) (name : str) (err : option str).

Inductive Response :=
| jsonify (body : Body) (code : Z)
| send_file (path download_name : str)
| flash_and_redirect (message category endpoint : str).

Section Handlers.

Variable host : Host.

(** [file.save(path)]: what is stored afterwards is up to the host. *)
Variable save : World -> str -> FileStorage.t -> World.

Definition sanitize (name : str) : str :=
  sanitize_filename_keep_parens (basename host) name.

(** [process_doc] on this host. *)
Definition run_process_doc (w : World) (input : str) (output : option str)
    (with_progress : bool) : World * list Z * (exn + str) :=
  process_doc (ConvertNumbersToText host) (LeftIndent_raises host)
    (FirstLineIndent_raises host) (percent host) (Fields_Update host)
    (abspath host) (com_error host) w input output with_progress.

(** [_run_job]: the registry and the world afterwards; [None] when an
    exception leaves the function. *)
Definition _run_job (J : gmap str Job) (w : World) (job_id input output : str)
  : option (gmap str Job * World) :=
  match mark_processing job_id J with
  | Some J =>
      let '(w, calls, result) := run_process_doc w input (Some output) true in
      let J := fold_left (fun J pct => on_progress job_id pct J) calls J in
      match result with
      | inr final =>
          match mark_done job_id final J with
          | Some J => Some (J, w)
          | None => None
          end
      | inl e =>
          match mark_error job_id e J with
          | Some J => Some (J, w)
          | None => None
          end
      end
  | None => None
  end.

(** One turn of [_worker_loop] that finds a job id in the queue. *)
Definition worker_turn (s : System) (w : World) : option (System * World) :=
  match JOB_QUEUE s with
  | [] => Some (s, w)
  | job_id :: q =>
      match JOBS s !! job_id with
      | None => Some ({| JOBS := JOBS s; JOB_QUEUE := q; worker := worker s |}, w)
      | Some job =>
          match _run_job (JOBS s) w job_id (input_path job) (output_path job) with
          | Some (J, w) => Some ({| JOBS := J; JOB_QUEUE := q; worker := worker s |}, w)
          | None => None
          end
      end
  end.

Definition out_dir : str := join host (project_root host) "convertedDocx".

(** [POST /start]; [tmpdir], [uuid] and [job_id] are what [mkdtemp] and the
    two calls of [uuid4] return. *)
Definition start (s : System) (w : World) (req : Request) (tmpdir uuid job_id : str)
  : System * World * Response :=
  match file req with
  | None => (s, w, jsonify (error_body "No file part") 400)
  | Some f =>
      match FileStorage.filename f with
      | [] => (s, w, jsonify (error_body "No file selected") 400)
      | name =>
          if negb (allowed_file name)
          then (s, w, jsonify (error_body "Only .docx allowed") 400)
          else
            let name := sanitize name in
            let input := join host tmpdir (uuid ++ "_" ++ name) in
            let w := save w input f in
            let output := join host out_dir name in
            (enqueue job_id name input output s, w, jsonify (job_body job_id name) 200)
      end
  end.

(** The loop of [POST /start-multi], each file with what [mkdtemp] and the
    two calls of [uuid4] return while it is handled. *)
Fixpoint start_multi_loop (s : System) (w : World)
    (uploads : list (FileStorage.t * (str * str * str))) (jobs : list (str * str))
  : System * World * Response :=
  match uploads with
  | [] => (s, w, jsonify (jobs_body jobs) 200)
  | (f, (tmpdir, uuid, job_id)) :: rest =>
      match FileStorage.filename f with
      | [] =>
          (s, w, jsonify (error_body "One of the files has an empty filename") 400)
      | name =>
          if negb (allowed_file name)
          then (s, w, jsonify (error_body ("Unsupported file: " ++ name)) 400)
          else
            let name := sanitize name in
            let input := join host tmpdir (uuid ++ "_" ++ name) in
            let w := save w input f in
            let output := join host out_dir name in
            start_multi_loop (enqueue job_id name input output s) w rest
              (jobs ++ [(job_id, name)])
      end
  end.

(** [POST /start-multi]; [fresh k] is what [mkdtemp] and the two calls of
    [uuid4] return for the file at position [k]. *)
Definition start_multi (s : System) (w : World) (req : Request)
    (fresh : nat -> str * str * str) : System * World * Response :=
  match files_list req with
  | [] => (s, w, jsonify (error_body "No files uploaded") 400)
  | files =>
      start_multi_loop s w (zip files (map fresh (seq 0 (length files)))) []
  end.

(** [GET /progress/<job_id>]. *)
Definition progress (s : System) (job_id : str) : Response :=
  match JOBS s !! job_id with
  | None => jsonify (error_body "Invalid job id") 404
  | Some job =>
      jsonify (progress_body (status job) (processing_pct job) (filename job)
                 (error job)) 200
  end.

(** [GET /result/<job_id>]. *)
Definition result (s : System) (job_id : str) : Response :=
  match JOBS s !! job_id with
  | None => jsonify (error_body "Invalid job id") 404
  | Some job =>
      match status job, final_path job with
      | Status.done, Some (c :: path') =>
          let path := c :: path' in
          let name :=
            match filename job with
            | [] => basename host path
            | name => name
            end in
          send_file path name
      | _, _ => jsonify (error_body "Not ready") 400
      end
  end.

(** [POST /convert]. The upload lives in a temporary directory that is
    removed when the handler is left. *)
Definition convert (w : World) (req : Request) (tmpdir uuid : str) : World * Response :=
  match file req with
  | None => (w, flash_and_redirect "No file part in the request." "error" "index")
  | Some f =>
      match FileStorage.filename f with
      | [] => (w, flash_and_redirect "No file selected." "error" "index")
      | name =>
          if negb (allowed_file name)
          then (w, flash_and_redirect "Please upload a .docx file." "error" "index")
          else
            let name := sanitize name in
            let input := join host tmpdir (uuid ++ "_" ++ name) in
            let w := save w input f in
            let output := join host out_dir name in
            let '(w, _, result) := run_process_doc w input (Some output) false in
            let w := remove input w in
            match result with
            | inl (FileNotFoundError _) =>
                (w, flash_and_redirect "Uploaded file could not be found." "error" "index")
            | inl (Exception _) =>
                (w, flash_and_redirect
                      "Conversion failed. Ensure Microsoft Word is installed and that 'pywin32' is available."
                      "error" "index")
            | inr final => (w, send_file final name)
            end
      end
  end.

End Handlers.

End App.

(* ===================================================================== *)
(** * convertedDocx/create_question_paper.py *)
(* ===================================================================== *)
Module QuestionPaper.

(** A child of the document body: a paragraph with its text, a table with
    the texts of its cells row by row, or something else (section
    properties and the like). *)
Inductive Element :=
| w_p (text : str)
| w_tbl (rows : list (list str))
| w_other.

Abbreviation Document := (list Element).

(** [doc.paragraphs] and [doc.tables]: the paragraphs and the tables of the
    body, in document order. *)
Definition paragraphs (doc : Document) : list str :=
  omap (fun e => match e with w_p text => Some text | _ => None end) doc.

Definition tables (doc : Document) : list (list (list str)) :=
  omap (fun e => match e with w_tbl rows => Some rows | _ => None end) doc.

Definition nonempty (s : str) : bool :=
  match s with
  | [] => false
  | _ => true
  end.

Definition NL : str := [Re.newline].

Definition get_table_text (table : list (list str)) : str :=
  Py.join NL
    (map (Py.join " ")
       (List.filter (fun row_text => match row_text with [] => false | _ => true end)
          (map (fun row => List.filter nonempty (map Py.strip row)) table))).

Inductive Kind := kind_p | kind_tbl.

Definition is_p (entry : Kind * str) : bool :=
  match entry.1 with kind_p => true | kind_tbl => false end.

Definition is_tbl (entry : Kind * str) : bool :=
  match entry.1 with kind_tbl => true | kind_p => false end.

(** The first loop of [extract_question]: the combined list of paragraph and
    table texts. A paragraph is looked up in [doc.paragraphs], a table in
    [doc.tables], at the number of entries of its kind collected so far.
    [None] is the IndexError of a lookup out of range. *)
Fixpoint combine (doc : Document) (body : list Element) (content : list (Kind * str))
  : option (list (Kind * str)) :=
  match body with
  | [] => Some content
  | w_p _ :: rest =>
      match paragraphs doc !! length (List.filter is_p content) with
      | Some text => combine doc rest (content ++ [(kind_p, text)])
      | None => None
      end
  | w_tbl _ :: rest =>
      let table_idx := length (List.filter is_tbl content) in
      match tables doc !! table_idx with
      | Some table =>
          let table_text := get_table_text table in
          if nonempty (Py.strip table_text)
          then combine doc rest (content ++ [(kind_tbl, table_text)])
          else combine doc rest content
      | None => None
      end
  | w_other :: rest => combine doc rest content
  end.

(** [str(n)] for an integer. *)
Definition decimal (n : Z) : str :=
  list_ascii_of_string (NilZero.string_of_int (Z.to_int n)).

(** The second loop of [extract_question]. *)
Fixpoint capture (question_number : Z) (content : list (Kind * str))
    (capturing : bool) (question_content : list str) : list str :=
  match content with
  | [] => question_content
  | (_, text) :: rest =>
      let text := Py.strip text in
      if negb (nonempty text) then
        capture question_number rest capturing question_content
      else if Py.startswith text (decimal question_number ++ ".") then
        capture question_number rest true (question_content ++ [text])
      else if capturing && Py.startswith text (decimal (question_number + 1) ++ ".") then
        question_content
      else if capturing && nonempty text then
        capture question_number rest capturing (question_content ++ [text])
      else
        capture question_number rest capturing question_content
  end.

(** [extract_question(doc_path, question_number)], on what opening the file
    gives: [None] when it cannot be read. An exception makes the function
    print a message and return None. *)
Definition extract_question (opened : option Document) (question_number : Z)
  : option str :=
  match opened with
  | None => None
  | Some doc =>
      match combine doc doc [] with
      | None => None
      | Some content =>
          match capture question_number content false [] with
          | [] => None
          | question_content => Some (Py.join NL question_content)
          end
      end
  end.

(** The names [create_question_paper] reads: Q1.docx to Q100.docx. *)
Definition docx_files : list str :=
  map (fun i => "Q" ++ decimal (Z.of_nat i) ++ ".docx") (seq 1 100).

End QuestionPaper.

(* ===================================================================== *)
(** * The vocabulary of the properties *)
(* ===================================================================== *)
Module ConverterSpec.

Import Py Converter.

(** The list types the heuristic takes for auto-numbering. *)
Definition numbered (lt : WdListType) : Prop :=
  lt = wdListOutlineNumbering \/ lt = wdListSimpleNumbering \/ lt = wdListListNumOnly.

(** The paragraph's text, stripped, starts with [word] in some letter case. *)
Definition starts_with_word (word : str) (p : Paragraph) : bool :=
  startswith (lower (strip (Text p))) word.

(** The text starts with digits and then '.' or ')'. *)
Definition begins_with_number (t : str) : bool :=
  match t with
  | c :: _ =>
      isdigit c &&
      match dropwhile isdigit t with
      | c' :: _ => char_in ".)" c'
      | [] => false
      end
  | [] => false
  end.

(** After the digits and the '.' or ')' comes a space, and no second one. *)
Definition one_space_after_number (t : str) : bool :=
  match dropwhile isdigit t with
  | c :: space :: r => char_in ".)" c && eqc space " " && negb (startswith r " ")
  | _ => false
  end.

End ConverterSpec.

Module AppSpec.

Import Py Converter App.

(** The characters the sanitiser lets through. *)
Definition allowed (c : ascii) : Prop := forbidden c = false.

(** The characters of the base name that the substitution keeps, and the same
    without the spaces and dots at its end. *)
Definition kept (basename : str -> str) (name : str) : str :=
  sub_class forbidden (basename name).
Definition trimmed (basename : str -> str) (name : str) : str :=
  rstrip (kept basename name) " .".

(** The changes of status a job can make. *)
Inductive lifecycle : option Status.t -> option Status.t -> Prop :=
| life_created : lifecycle None (Some Status.queued)
| life_taken : lifecycle (Some Status.queued) (Some Status.processing)
| life_done : lifecycle (Some Status.processing) (Some Status.done)
| life_error : lifecycle (Some Status.processing) (Some Status.error).

(** The histories of a job id (newest status first): no job yet, then
    queued, then processing, then done or error. *)
Definition lifecycle_histories : list (list (option Status.t)) :=
  [ [None];
    [Some Status.queued; None];
    [Some Status.processing; Some Status.queued; None];
    [Some Status.done; Some Status.processing; Some Status.queued; None];
    [Some Status.error; Some Status.processing; Some Status.queued; None] ].

(** The history of a job id whose status is [st]. *)
Definition history_of (st : option Status.t) : list (option Status.t) :=
  match st with
  | None => [None]
  | Some Status.queued => [Some Status.queued; None]
  | Some Status.processing => [Some Status.processing; Some Status.queued; None]
  | Some Status.done =>
      [Some Status.done; Some Status.processing; Some Status.queued; None]
  | Some Status.error =>
      [Some Status.error; Some Status.processing; Some Status.queued; None]
  end.

(** [later] is a run that goes on from the run [earlier] and has come to
    the state [s]. *)
Definition reaches (later earlier : list System) (s : System) : Prop :=
  run later /\ (exists more, later = more ++ earlier) /\ head later = Some s.

(** The uploads of a request to [start_multi], each with what [mkdtemp] and
    the two calls of [uuid4] return for it; a file that is accepted. *)
Definition uploads_of (req : Request) (fresh : nat -> str * str * str)
  : list (FileStorage.t * (str * str * str)) :=
  zip (files_list req) (map fresh (seq 0 (length (files_list req)))).

Definition accepted (f : FileStorage.t) : Prop :=
  FileStorage.filename f <> [] /\ allowed_file (FileStorage.filename f) = true.

Definition pct_in_range (s : System) : Prop :=
  forall job_id job, JOBS s !! job_id = Some job -> 0 <= processing_pct job <= 100.

(** What holds in every state of a run. *)
Record invariant (s : System) : Prop := {
  inv_queue_nodup : NoDup (JOB_QUEUE s);
  inv_queue_queued :
    forall job_id, job_id ∈ JOB_QUEUE s -> status_of job_id s = Some Status.queued;
  inv_picked :
    forall job_id, worker s = Picked job_id ->
      status_of job_id s = Some Status.queued /\ job_id ∉ JOB_QUEUE s;
  inv_in_doc :
    forall job_id, worker s = InProcessDoc job_id ->
      status_of job_id s = Some Status.processing;
  inv_alive : worker s <> Dead;
  inv_pct : pct_in_range s
}.

End AppSpec.

(** The claim about [extract_question] in its own words, over the elements
    of the document. *)
Module QuestionPaperSpec.

Import Py QuestionPaper.

(** The text of an element: a paragraph's text, a table's text. *)
Definition element_text (e : Element) : option str :=
  match e with
  | w_p text => Some text
  | w_tbl rows => Some (get_table_text rows)
  | w_other => None
  end.

(** The non-empty texts of a document, stripped, in document order. *)
Definition texts (doc : Document) : list str :=
  List.filter nonempty (map strip (omap element_text doc)).

Definition starts (n : Z) (text : str) : bool :=
  startswith text (decimal n ++ ".").

(** The texts up to the first that starts with the next number. *)
Fixpoint until_next (n : Z) (l : list str) : list str :=
  match l with
  | [] => []
  | t :: rest => if starts (n + 1) t then [] else t :: until_next n rest
  end.

(** The block that starts at the first text with the prefix of [n]. *)
Fixpoint block (n : Z) (l : list str) : list str :=
  match l with
  | [] => []
  | t :: rest => if starts n t then t :: until_next n rest else block n rest
  end.

Definition extract_question_spec (doc : Document) (n : Z) : option str :=
  match block n (texts doc) with
  | [] => None
  | b => Some (join NL b)
  end.

(** The stripped, non-empty texts of a combined list. *)
Definition content_texts (content : list (Kind * str)) : list str :=
  List.filter nonempty (map (fun entry => strip entry.2) content).

(** The entry an element should give. *)
Definition entry_of (e : Element) : option (Kind * str) :=
  match e with
  | w_p text => Some (kind_p, text)
  | w_tbl rows => Some (kind_tbl, get_table_text rows)
  | w_other => None
  end.

(** No table of the document is empty. *)
Definition no_empty_table (doc : Document) : Prop :=
  Forall (fun e => match e with
                   | w_tbl rows => nonempty (strip (get_table_text rows)) = true
                   | _ => True
                   end) doc.

End QuestionPaperSpec.

(* ===================================================================== *)
(** * Small inputs to run the program on *)
(* ===================================================================== *)
Module Samples.

Import Py Converter App.

(** A numbered top-level paragraph that reads "answer all parts". *)
Definition lowercase_answer : Paragraph :=
  {| Text := "answer all parts" ++ [CR];
     Format := {| ListType := Some wdListSimpleNumbering;
                  ListLevelNumber := Some 1 |};
     LeftIndent := 36; FirstLineIndent := -18 |}.

(** A conversion that is not applicable: the call raises. *)
Definition not_applicable (p : Paragraph) : option Paragraph := None.

(** An assignment Word always takes, and one it always refuses. *)
Definition never_raises (p : Paragraph) : bool := false.
Definition always_raises (p : Paragraph) : bool := true.

(** The percentage in exact arithmetic. *)
Definition percent_exact (processed total : nat) : Z :=
  Z.of_nat processed * 100 / Z.of_nat total.

Definition numbered_paragraph (text : str) : Paragraph :=
  {| Text := text ++ [CR];
     Format := {| ListType := Some wdListSimpleNumbering;
                  ListLevelNumber := Some 1 |};
     LeftIndent := 36; FirstLineIndent := -18 |}.

Definition sample_document : Document :=
  [numbered_paragraph "3)Solve for x"; numbered_paragraph "Answer: 4"].

(** A host with POSIX paths on which Word converts nothing. *)
Definition sample_host : Host :=
  {| basename := posix_basename;
     join := fun a b => a ++ "/" ++ b;
     abspath := fun path => path;
     project_root := "/srv/app";
     ConvertNumbersToText := not_applicable;
     LeftIndent_raises := never_raises;
     FirstLineIndent_raises := never_raises;
     percent := percent_exact;
     Fields_Update := fun doc => Some doc;
     com_error := fun _ => "com_error" |}.

(** An upload stored under the path it is saved to. *)
Definition stored (w : World) (path : str) (f : FileStorage.t) : World :=
  store path (FileStorage.stream f) w.

(** An upload that never reaches the disk. *)
Definition lost_upload (w : World) (path : str) (f : FileStorage.t) : World := w.

Definition empty_world : World :=
  {| files := ∅; word_installed := true; com_log := [] |}.

Definition sample_request : Request :=
  {| file := Some {| FileStorage.filename := "paper (1).docx";
                     FileStorage.stream := sample_document |};
     files_list := [] |}.

(** One job from upload to download: queued, taken, processing, a progress
    report of 250 per cent, done. *)
Definition run_1 : System :=
  enqueue "job-1" "a.docx" "/tmp/up/u_a.docx" "/srv/app/convertedDocx/a.docx" initial.
Definition run_2 : System :=
  {| JOBS := JOBS run_1; JOB_QUEUE := []; worker := Picked "job-1" |}.
Definition run_3 : System :=
  with_jobs (default ∅ (mark_processing "job-1" (JOBS run_2)))
    (InProcessDoc "job-1") run_2.
Definition run_4 : System :=
  with_jobs (on_progress "job-1" 250 (JOBS run_3)) (InProcessDoc "job-1") run_3.
Definition run_5 : System :=
  with_jobs (default ∅ (mark_done "job-1" "/srv/app/convertedDocx/a.docx" (JOBS run_4)))
    Waiting run_4.
Definition sample_run : list System :=
  [run_5; run_4; run_3; run_2; run_1; initial].

End Samples.

Module QuestionSamples.

Import QuestionPaper.

(** A question with an empty table and then a table of options. *)
Definition table_after_empty_table : Document :=
  [ w_p "1. Which row is right?";
    w_tbl [[[] : str; " " : str]];
    w_tbl [["a" : str; "b" : str]; ["c" : str]];
    w_p "2. Next question" ].

End QuestionSamples.

Module UploadSamples.

Import Converter App Samples.


End UploadSamples.

(** create_question_paper.py: the assembly of the paper. *)
Module QuestionPaperAssembly.

Import QuestionPaper.

(** What [new_doc] is given: a heading or a paragraph. *)
Inductive Block :=
| heading (text : str) (level : Z)
| paragraph (text : str).

(** The files the script sees: for a name, [None] when no such file exists,
    and otherwise what opening it gives ([None] when it cannot be read). *)
Abbreviation Disk := (str -> option (option Document)).

(** The variables of [create_question_paper] after its file loop. *)
Record Summary := {
  new_doc : list Block;
  question_count : nat;
  missing_files : list str;
  error_files : list (str * str);
  processed_files : list str
}.

(** The prompt loop: each answer is what [int(input(...))] gives, [None]
    for a ValueError. The number returned is the first answer from 1 to 20;
    [None] when the answers run out before one is given. *)
Fixpoint ask_question_number (answers : list (option Z)) : option Z :=
  match answers with
  | [] => None
  | Some question_number :: rest =>
      if (1 <=? question_number) && (question_number <=? 20)
      then Some question_number
      else ask_question_number rest
  | None :: rest => ask_question_number rest
  end.

(** The loop over [docx_files]. *)
Fixpoint file_loop (disk : Disk) (question_number : Z) (files : list str)
    (r : Summary) : Summary :=
  match files with
  | [] => r
  | file :: rest =>
      match disk file with
      | None =>
          file_loop disk question_number rest
            {| new_doc := new_doc r; question_count := question_count r;
               missing_files := missing_files r ++ [file];
               error_files := error_files r;
               processed_files := processed_files r |}
      | Some opened =>
          match extract_question opened question_number with
          | Some (c :: q) =>
              let question := c :: q in
              let question_count := S (question_count r) in
              file_loop disk question_number rest
                {| new_doc :=
                     new_doc r
                     ++ [paragraph
                           (decimal (Z.of_nat question_count) ++ ". "
                            ++ Py.from question
                                 (Z.of_nat (length (decimal question_number)) + 2));
                         paragraph []];
                   question_count := question_count;
                   missing_files := missing_files r;
                   error_files := error_files r;
                   processed_files := processed_files r ++ [file] |}
          | _ =>
              file_loop disk question_number rest
                {| new_doc := new_doc r; question_count := question_count r;
                   missing_files := missing_files r;
                   error_files := error_files r ++ [(file, "No question found" : str)];
                   processed_files := processed_files r |}
          end
      end
  end.

(** The variables before the loop. *)
Definition started (question_number : Z) : Summary :=
  {| new_doc :=
       [heading ("Question Paper - Questions #" ++ decimal question_number
                 ++ " from all files") 0];
     question_count := 0;
     missing_files := []; error_files := []; processed_files := [] |}.

(** [create_question_paper()] up to the summary it prints: the variables
    after the loop, [None] when no question number was given. Adding a
    paragraph to [new_doc] is taken to succeed, so that the [except] branch
    of the loop is never entered. *)
Definition create_question_paper (disk : Disk) (answers : list (option Z))
  : option Summary :=
  match ask_question_number answers with
  | Some question_number =>
      Some (file_loop disk question_number docx_files (started question_number))
  | None => None
  end.

End QuestionPaperAssembly.

(** The vocabulary of the further properties of the job registry and of the
    handlers. *)
Module JobsSpec.

Import Py Converter App.

(** What the fields of a job hold in each status. *)
Definition consistent (job : Job) : Prop :=
  match status job with
  | Status.queued =>
      processing_pct job = 0 /\ final_path job = None /\ error job = None
  | Status.processing => final_path job = None /\ error job = None
  | Status.done =>
      processing_pct job = 100 /\ (exists path, final_path job = Some path)
      /\ error job = None
  | Status.error => final_path job = None /\ exists msg, error job = Some msg
  end.

(** How the statuses relate to the queue and the worker. *)
Record scheduled (s : System) : Prop := {
  sch_processing :
    forall job_id, status_of job_id s = Some Status.processing ->
      worker s = InProcessDoc job_id;
  sch_queued :
    forall job_id, status_of job_id s = Some Status.queued ->
      job_id ∈ JOB_QUEUE s \/ worker s = Picked job_id;
  sch_fields :
    forall job_id job, JOBS s !! job_id = Some job -> consistent job
}.

(** [max(0, min(100, pct))]. *)
Definition clamp (pct : Z) : Z := Z.max 0 (Z.min 100 pct).

(** The percentage a job shows after the calls of [on_progress] made for it,
    from the percentage it showed before. *)
Definition last_pct (before : Z) (calls : list Z) : Z :=
  List.last (map clamp calls) before.

(** The record of a job when [_run_job] is through with it. *)
Definition finished (job : Job) (calls : list Z) (result : exn + str) : Job :=
  match result with
  | inr final =>
      {| status := Status.done; filename := filename job; processing_pct := 100;
         final_path := Some final; error := error job;
         input_path := input_path job; output_path := output_path job |}
  | inl e =>
      {| status := Status.error; filename := filename job;
         processing_pct := last_pct 0 calls;
         final_path := final_path job; error := Some (exn_message e);
         input_path := input_path job; output_path := output_path job |}
  end.


End JobsSpec.

(** The vocabulary of the properties of the paper assembly. *)
Module AssemblySpec.

Import Py QuestionPaper QuestionPaperAssembly.

(** The texts of the rows of a table that have one. *)
Definition row_texts (table : list (list str)) : list (list str) :=
  List.filter (fun row_text => match row_text with [] => false | _ => true end)
    (map (fun row => List.filter nonempty (map strip row)) table).

(** [os.path.exists(file)] and a true [question] for [file]. *)
Definition on_disk (disk : Disk) (file : str) : bool :=
  match disk file with Some _ => true | None => false end.

Definition has_question (disk : Disk) (question_number : Z) (file : str) : bool :=
  match disk file with
  | Some opened =>
      match extract_question opened question_number with
      | Some _ => true
      | None => false
      end
  | None => false
  end.

(** The message recorded for a file without the question. *)
Definition no_question : str := "No question found".

(** The questions written so far are those of the files processed so far,
    in their order, renumbered from 1. *)
Definition numbered_paper (disk : Disk) (n : Z) (r : Summary) : Prop :=
  question_count r = length (processed_files r)
  /\ length (new_doc r) = (1 + 2 * question_count r)%nat
  /\ forall k file, processed_files r !! k = Some file ->
       exists opened tail,
         disk file = Some opened
         /\ extract_question opened n = Some (decimal n ++ "." ++ tail)
         /\ new_doc r !! (1 + 2 * k)%nat
            = Some (paragraph (decimal (Z.of_nat (S k)) ++ ". " ++ skipn 1 tail))
         /\ new_doc r !! (2 + 2 * k)%nat = Some (paragraph []).

End AssemblySpec.

Module AssemblySamples.

Import QuestionPaper QuestionPaperAssembly.

(** A folder with one file, and the paper made from it. *)
Definition one_file : Disk :=
  fun file =>
    if decide (file = ("Q2.docx" : str))
    then Some (Some [w_p "3.What is a-b?"; w_tbl [["(a) 1" : str; "(b) 2" : str]];
                     w_p "4. Next"])
    else if decide (file = ("Q5.docx" : str)) then Some None
    else None.

Definition one_file_answers : list (option Z) := [None; Some 21; Some 3; Some 4].

Definition one_file_paper : Summary :=
  file_loop one_file 3 docx_files (started 3).

End AssemblySamples.

(* ===================================================================== *)
(** * Facts about the Python built-ins *)
(* ===================================================================== *)
Module PyFacts.

Import Py.

Lemma eqc_true (a b : ascii) : eqc a b = true <-> a = b.
Proof. unfold eqc. apply Ascii.eqb_eq. Qed.

Lemma eqc_refl (a : ascii) : eqc a a = true.
Proof. apply eqc_true. reflexivity. Qed.

Lemma startswith_app (s p : str) : startswith (p ++ s) p = true.
Proof. induction p as [|a p IH]; simpl; [reflexivity|]. now rewrite eqc_refl. Qed.

Lemma startswith_spec (s p : str) :
  startswith s p = true <-> exists t, s = p ++ t.
Proof.
  revert s. induction p as [|a p IH]; intros s; simpl.
  - split; [intros _; now exists s | reflexivity].
  - destruct s as [|b s].
    + split; [discriminate | intros [t Ht]; discriminate].
    + rewrite andb_true_iff, eqc_true, IH. split.
      * intros [-> [t ->]]. now exists t.
      * intros [t Ht]. injection Ht as -> ->. split; [reflexivity | now exists t].
Qed.

Lemma startswith_lower (s p : str) :
  startswith s p = true -> startswith (lower s) (lower p) = true.
Proof.
  intros H. apply startswith_spec in H as [t ->].
  unfold lower. rewrite map_app. apply startswith_app.
Qed.

Lemma endswith_app (s p : str) : endswith (s ++ p) p = true.
Proof. unfold endswith. rewrite rev_app_distr. apply startswith_app. Qed.

Lemma endswith_spec (s p : str) :
  endswith s p = true <-> exists t, s = t ++ p.
Proof.
  unfold endswith. rewrite startswith_spec. split.
  - intros [t Ht]. exists (rev t).
    rewrite <- (rev_involutive s), Ht, rev_app_distr, rev_involutive. reflexivity.
  - intros [t ->]. exists (rev t). apply rev_app_distr.
Qed.

(** The built-ins on inputs whose results Python gives. *)
Example strip_example : strip ("  Answer: x " ++ ["013"%char]) = "Answer: x".
Proof. reflexivity. Qed.

Example lower_example : lower "ANSWER Key 12" = "answer key 12".
Proof. reflexivity. Qed.

Example rfind_example : rfind "a.b.c" "."%char = 3 /\ rfind "abc" "."%char = -1.
Proof. split; reflexivity. Qed.

Example join_example : join ", " ["a" : str; "b" : str; "c" : str] = "a, b, c".
Proof. reflexivity. Qed.

Example splitext_example :
  splitext "a.tar.gz" = ("a.tar" : str, ".gz" : str)
  /\ splitext ".bashrc" = (".bashrc" : str, [])
  /\ splitext "..a.b" = ("..a" : str, ".b" : str)
  /\ splitext "a." = ("a" : str, "." : str)
  /\ splitext "draft (2)" = ("draft (2)" : str, []).
Proof. repeat split; reflexivity. Qed.

Example posix_basename_example :
  posix_basename "/tmp/up/a.docx" = "a.docx" /\ posix_basename "a.docx" = "a.docx"
  /\ posix_basename "dir/" = [].
Proof. repeat split; reflexivity. Qed.

End PyFacts.

(* ===================================================================== *)
(** * Facts about the matcher and the program's pattern *)
(* ===================================================================== *)
Module ReFacts.
Import Py PyFacts Re Converter.

Lemma star_k_run {A} (p : ascii -> bool) (d s : str) (k : str -> option A) (x : A) :
  Forall (fun c => p c = true) d ->
  match s with c :: _ => p c = false | [] => True end ->
  k s = Some x ->
  star_k p (d ++ s) k = Some x.
Proof.
  intros Hd Hs Hk. induction Hd as [|a d Ha Hd IH]; simpl.
  - destruct s as [|c s']; [exact Hk|]. simpl. now rewrite Hs.
  - now rewrite Ha, IH.
Qed.

Lemma take_lead (lead rest : str) :
  take (length (lead ++ rest) - length rest) (lead ++ rest) = lead.
Proof.
  replace (length (lead ++ rest) - length rest)%nat with (length lead)
    by (rewrite length_app; lia).
  apply take_app_length.
Qed.

Lemma rest_match (whole lead rest : str) :
  whole = lead ++ rest -> rest <> [] ->
  Forall (fun c => dot c = true) rest ->
  plus_k dot rest
    (fun s2 =>
       if at_eol s2
       then Some (([] ++ [take (length whole - length rest) whole])
                  ++ [take (length rest - length s2) rest])
       else None)
  = Some [lead; rest].
Proof.
  intros -> Hne Hdot. destruct rest as [|c rest']; [congruence|].
  inversion Hdot as [|? ? Hc Hdot']; subst.
  unfold plus_k. rewrite Hc.
  rewrite <- (app_nil_r rest') at 1.
  apply star_k_run; [exact Hdot' | exact I |].
  simpl at_eol. cbv iota. rewrite take_lead.
  replace (length (c :: rest') - length (@nil ascii))%nat
    with (length (c :: rest')) by (simpl; lia).
  rewrite firstn_all. reflexivity.
Qed.

Lemma punct_not_digit (c : ascii) : char_in ".)" c = true -> isdigit c = false.
Proof.
  unfold char_in. simpl. rewrite !orb_true_iff, !eqc_true.
  intros [->|[->|H]]; [reflexivity | reflexivity | discriminate].
Qed.

Lemma opt_k_skip {A} (p : ascii -> bool) (s : str) (k : str -> option A) :
  match s with c :: _ => p c = false | [] => True end ->
  opt_k p s k = k s.
Proof. destruct s as [|c s']; simpl; [reflexivity|]. now intros ->. Qed.

Lemma opt_k_take {A} (p : ascii -> bool) (c : ascii) (s : str) (k : str -> option A) (x : A) :
  p c = true -> k s = Some x -> opt_k p (c :: s) k = Some x.
Proof. intros Hc Hk. simpl. now rewrite Hc, Hk. Qed.

Lemma lead_rest_match (digits gap rest : str) (punct : ascii) :
  digits <> [] -> Forall (fun c => isdigit c = true) digits ->
  char_in ".)" punct = true ->
  gap = [] \/ gap = " " ->
  match rest with c :: _ => isspace c = false | [] => False end ->
  Forall (fun c => dot c = true) rest ->
  re_match lead_rest (digits ++ punct :: gap ++ rest) = Some [digits ++ punct :: gap; rest].
Proof.
  intros Hne Hd Hp Hgap Hrest Hdot.
  unfold re_match, lead_rest. cbn [m]. rewrite Nat.eqb_refl.
  destruct digits as [|a d]; [congruence|].
  inversion Hd as [|? ? Ha Hd']; subst.
  unfold plus_k at 1. rewrite <- app_comm_cons, Ha.
  apply star_k_run; [exact Hd' | now apply punct_not_digit |].
  rewrite Hp.
  assert (Hne' : rest <> []) by (destruct rest; [contradiction | discriminate]).
  destruct Hgap as [-> | ->].
  - rewrite opt_k_skip.
    + apply (rest_match _ ((a :: d) ++ [punct])); [|exact Hne'|exact Hdot].
      simpl. now rewrite <- app_assoc.
    + destruct rest; [exact I | exact Hrest].
  - apply opt_k_take; [reflexivity|].
    apply (rest_match _ ((a :: d) ++ punct :: " ")); [|exact Hne'|exact Hdot].
    simpl. rewrite <- app_assoc. reflexivity.
Qed.
(** Both sides are the same list up to the bracketing of [++] and [::]. *)
Ltac same_list :=
  repeat (rewrite <- ?app_assoc, <- ?app_comm_cons; cbn [app]); reflexivity.

Lemma endswith_space_punct (digits : str) (punct : ascii) :
  char_in ".)" punct = true -> endswith (digits ++ [punct]) " " = false.
Proof.
  intros Hp. unfold endswith. rewrite rev_app_distr. simpl.
  revert Hp. unfold char_in. simpl. rewrite !orb_true_iff, !eqc_true.
  intros [->|[->|H]]; [reflexivity | reflexivity | discriminate].
Qed.

(** The respacing on a text that is a number, a dot or parenthesis, at most
    one space, and then something that does not start with white space. *)
Lemma spaced_text_number (digits gap rest : str) (punct : ascii) :
  digits <> [] -> Forall (fun c => isdigit c = true) digits ->
  char_in ".)" punct = true ->
  gap = [] \/ gap = " " ->
  match rest with c :: _ => isspace c = false | [] => False end ->
  Forall (fun c => dot c = true) rest ->
  spaced_text (digits ++ punct :: gap ++ rest ++ [CR])
  = Some (digits ++ punct :: " " ++ rest ++ [CR]).
Proof.
  intros Hne Hd Hp Hgap Hrest Hdot. unfold spaced_text.
  assert (E : digits ++ punct :: gap ++ rest ++ [CR]
              = (digits ++ punct :: gap ++ rest) ++ [CR]).
  { same_list. }
  rewrite E, endswith_app, removelast_last.
  rewrite lead_rest_match by assumption.
  destruct Hgap as [-> | ->].
  - rewrite (endswith_space_punct digits punct Hp). cbn [negb].
    f_equal. same_list.
  - replace (endswith (digits ++ punct :: " ") " ") with true.
    + cbn [negb]. f_equal. same_list.
    + symmetry. apply endswith_spec. exists (digits ++ [punct]). same_list.
Qed.

(** The respacing on some texts. A tab after the number stays and the space
    is added behind it; a number with nothing after it is left alone. *)
Example spaced_text_examples :
  spaced_text ("21.Which" ++ [CR]) = Some ("21. Which" ++ [CR])
  /\ spaced_text ("21)Which" ++ [CR]) = Some ("21) Which" ++ [CR])
  /\ spaced_text ("21. Which" ++ [CR]) = Some ("21. Which" ++ [CR])
  /\ spaced_text "21.Which" = Some ("21. Which" : str)
  /\ spaced_text ("21." ++ ["009"%char] ++ "Which" ++ [CR])
     = Some ("21." ++ ["009"%char] ++ " Which" ++ [CR])
  /\ spaced_text ("21." ++ [CR]) = None
  /\ spaced_text ("Which 21." ++ [CR]) = None.
Proof. repeat split; reflexivity. Qed.

End ReFacts.

(* ===================================================================== *)
(** * converter.py: the question heuristic *)
(* ===================================================================== *)
Module ConverterFacts.

Import Py PyFacts Re ReFacts Converter ConverterSpec Samples.

Lemma numbered_test (lt : WdListType) :
  negb (WdListType_eqb lt wdListNoNumbering)
  && (WdListType_eqb lt wdListOutlineNumbering
      || WdListType_eqb lt wdListSimpleNumbering
      || WdListType_eqb lt wdListListNumOnly) = true <-> numbered lt.
Proof.
  unfold numbered. destruct lt; simpl; split; intros H;
    try discriminate; try reflexivity; auto;
    destruct H as [H|[H|H]]; discriminate.
Qed.

(** What the heuristic accepts, exactly. *)
Lemma is_question_paragraph_spec (p : Paragraph) :
  is_question_paragraph p = true <->
  (exists lt, ListType (Format p) = Some lt /\ numbered lt)
  /\ ListLevelNumber (Format p) = Some 1
  /\ starts_with_word "answer" p = false
  /\ starts_with_word "explanation" p = false.
Proof.
  unfold is_question_paragraph, starts_with_word.
  destruct (startswith (lower (strip (Text p))) "answer") eqn:Ha.
  { split; [discriminate | intros (_ & _ & H & _); discriminate]. }
  destruct (startswith (lower (strip (Text p))) "explanation") eqn:He.
  { split; [discriminate | intros (_ & _ & _ & H); discriminate]. }
  cbv beta iota zeta delta [orb].
  destruct (ListType (Format p)) as [lt|].
  2:{ split; [discriminate | intros ([lt [H _]] & _); discriminate]. }
  destruct (ListLevelNumber (Format p)) as [level|].
  2:{ split; [discriminate | intros (_ & H & _); discriminate]. }
  rewrite andb_true_iff, numbered_test, Z.eqb_eq. split.
  - intros [Hn ->]. repeat split; eauto.
  - intros ([lt' [Hlt Hn]] & Hl & _). injection Hlt as ->. injection Hl as ->. auto.
Qed.

(** C1 (as the code has it). A paragraph is taken for a question exactly
    when its list type is outline, simple or ListNum numbering, its list
    level is 1, and its stripped text does not start with "answer" or
    "explanation" in any letter case; so every paragraph whose stripped
    text starts with "Answer" or "Explanation" is left out. The twin in
    rmAutoNum.py is the same function. *)
Theorem is_question_paragraph_iff (p : Paragraph) :
  (is_question_paragraph p = true <->
   (exists lt, ListType (Format p) = Some lt /\ numbered lt)
   /\ ListLevelNumber (Format p) = Some 1
   /\ starts_with_word "answer" p = false
   /\ starts_with_word "explanation" p = false)
  /\ (startswith (strip (Text p)) "Answer" = true
      \/ startswith (strip (Text p)) "Explanation" = true ->
      is_question_paragraph p = false)
  /\ RmAutoNum.is_question_paragraph p = is_question_paragraph p.
Proof.
  split; [apply is_question_paragraph_spec|]. split; [|reflexivity].
  intros H. unfold is_question_paragraph.
  destruct H as [H|H]; apply startswith_lower in H; change (lower "Answer") with
    (list_ascii_of_string "answer") in H; change (lower "Explanation") with
    (list_ascii_of_string "explanation") in H; rewrite H; simpl;
    [reflexivity | now rewrite orb_true_r].
Qed.

(** C1 on a numbered top-level paragraph that reads "Answer: 4". *)
Lemma is_question_paragraph_iff_witness :
  is_question_paragraph (numbered_paragraph "Answer: 4") = false.
Proof.
  apply (proj1 (proj2 (is_question_paragraph_iff (numbered_paragraph "Answer: 4")))).
  left. reflexivity.
Defined.

(** C1 as stated fails: this paragraph is in a simple-numbered list at level
    1 and its stripped text starts with neither "Answer" nor "Explanation",
    yet the heuristic rejects it, because the test ignores letter case. *)
Lemma is_question_paragraph_ignores_case :
  ListType (Format lowercase_answer) = Some wdListSimpleNumbering
  /\ ListLevelNumber (Format lowercase_answer) = Some 1
  /\ startswith (strip (Text lowercase_answer)) "Answer" = false
  /\ startswith (strip (Text lowercase_answer)) "Explanation" = false
  /\ is_question_paragraph lowercase_answer = false.
Proof. repeat split; reflexivity. Qed.

(* --------------------------------------------------------------------- *)
(** ** The two loops of [convert_questions_to_text] *)

Section Loops.

Variable ConvertNumbersToText : Paragraph -> option Paragraph.
Variables LeftIndent_raises FirstLineIndent_raises : Paragraph -> bool.
Variable percent : nat -> nat -> Z.

Let convert_question :=
  convert_question ConvertNumbersToText LeftIndent_raises FirstLineIndent_raises.

(** Altering the positions of a duplicate-free list, one after the other,
    alters each listed position once and no other. *)
Lemma fold_alter_lookup (f : Paragraph -> Paragraph) (l : list nat) (d : Document) (i : nat) :
  NoDup l ->
  fold_left (fun d i => alter f i d) l d !! i
  = if bool_decide (i ∈ l) then f <$> d !! i else d !! i.
Proof.
  intros Hnd. revert d. induction Hnd as [|j l Hj Hnd IH]; intros d; simpl.
  - reflexivity.
  - rewrite IH. destruct (decide (i = j)) as [->|Hne].
    + rewrite bool_decide_eq_false_2 by exact Hj.
      rewrite bool_decide_eq_true_2 by (left).
      apply list_lookup_alter_eq.
    + rewrite list_lookup_alter_ne by congruence.
      destruct (bool_decide (i ∈ l)) eqn:Hi.
      * apply bool_decide_eq_true_1 in Hi.
        rewrite bool_decide_eq_true_2 by (now right). reflexivity.
      * apply bool_decide_eq_false_1 in Hi.
        rewrite bool_decide_eq_false_2; [reflexivity|].
        intros [?|?]%elem_of_cons; tauto.
Qed.

Lemma targets_NoDup (doc : Document) : NoDup (targets doc).
Proof.
  unfold targets. apply NoDup_ListNoDup, List.NoDup_filter, List.seq_NoDup.
Qed.

Lemma elem_of_targets (doc : Document) (i : nat) :
  i ∈ targets doc <-> exists p, doc !! i = Some p /\ is_question_paragraph p = true.
Proof.
  unfold targets. rewrite list_elem_of_In, List.filter_In, List.in_seq. split.
  - intros [_ H]. destruct (doc !! i) as [p|]; [eauto | discriminate].
  - intros [p [Hp Hq]]. rewrite Hp. split; [|exact Hq].
    apply lookup_lt_Some in Hp. lia.
Qed.

(** The document after the second loop, paragraph by paragraph. *)
Lemma convert_questions_to_text_lookup (doc : Document) (i : nat) (p : Paragraph) :
  doc !! i = Some p ->
  (convert_questions_to_text ConvertNumbersToText LeftIndent_raises
     FirstLineIndent_raises percent doc).1 !! i
  = Some (if is_question_paragraph p then convert_question p else p).
Proof.
  intros Hp. unfold convert_questions_to_text. simpl.
  rewrite fold_alter_lookup by apply targets_NoDup. rewrite Hp.
  destruct (is_question_paragraph p) eqn:Hq.
  - rewrite bool_decide_eq_true_2; [reflexivity|]. apply elem_of_targets. eauto.
  - rewrite bool_decide_eq_false_2; [reflexivity|].
    intros [q [Hq1 Hq2]]%elem_of_targets. congruence.
Qed.

(** The paragraph after the indent assignments: an indent is zero when its
    assignment was reached and taken, and as it was otherwise. The text is
    not touched. *)
Lemma zero_indents_spec (q : Paragraph) :
  let q' := zero_indents LeftIndent_raises FirstLineIndent_raises q in
  LeftIndent q' = (if LeftIndent_raises q then LeftIndent q else 0)
  /\ FirstLineIndent q'
     = (if LeftIndent_raises q || FirstLineIndent_raises (set_LeftIndent 0 q)
        then FirstLineIndent q else 0)
  /\ Text q' = Text q.
Proof.
  unfold zero_indents. destruct (LeftIndent_raises q); [now repeat split|].
  cbv zeta. destruct (FirstLineIndent_raises (set_LeftIndent 0 q));
    now repeat split.
Qed.

Lemma convert_question_indents (p : Paragraph) :
  let q := numbers_to_text ConvertNumbersToText p in
  LeftIndent (convert_question p) = (if LeftIndent_raises q then LeftIndent q else 0)
  /\ FirstLineIndent (convert_question p)
     = (if LeftIndent_raises q || FirstLineIndent_raises (set_LeftIndent 0 q)
        then FirstLineIndent q else 0).
Proof.
  intros q. unfold convert_question, Converter.convert_question. fold q.
  destruct (zero_indents_spec q) as (Hl & Hf & _). cbv zeta in Hl, Hf.
  destruct (spaced_text _); cbn [LeftIndent FirstLineIndent set_Text];
    split; assumption.
Qed.

(** rmAutoNum.py runs the same two loops, without the progress reports. *)
Lemma rmAutoNum_same (doc : Document) :
  RmAutoNum.convert_questions_to_text ConvertNumbersToText LeftIndent_raises
    FirstLineIndent_raises doc
  = (convert_questions_to_text ConvertNumbersToText LeftIndent_raises
       FirstLineIndent_raises percent doc).1.
Proof. reflexivity. Qed.

(** C3 (as the code has it). Take a paragraph the heuristic matched, and
    let [q] be that paragraph once its numbering is converted. When
    [convert_questions_to_text] is done, in converter.py and in rmAutoNum.py
    alike, the paragraph has left indent zero and first-line indent zero
    provided Word took the two assignments. An assignment that raises is
    dropped and ends the block: if the left indent is refused, both indents
    are those of [q]; if only the first-line indent is refused, the left
    indent is zero and the first-line indent is that of [q]. *)
Theorem convert_questions_zero_indent (doc : Document) (i : nat) (p : Paragraph) :
  doc !! i = Some p ->
  is_question_paragraph p = true ->
  let q := numbers_to_text ConvertNumbersToText p in
  exists p',
    (convert_questions_to_text ConvertNumbersToText LeftIndent_raises
       FirstLineIndent_raises percent doc).1 !! i = Some p'
    /\ RmAutoNum.convert_questions_to_text ConvertNumbersToText LeftIndent_raises
         FirstLineIndent_raises doc !! i = Some p'
    /\ (LeftIndent_raises q = false ->
        FirstLineIndent_raises (set_LeftIndent 0 q) = false ->
        LeftIndent p' = 0 /\ FirstLineIndent p' = 0)
    /\ (LeftIndent_raises q = true ->
        LeftIndent p' = LeftIndent q /\ FirstLineIndent p' = FirstLineIndent q)
    /\ (LeftIndent_raises q = false ->
        FirstLineIndent_raises (set_LeftIndent 0 q) = true ->
        LeftIndent p' = 0 /\ FirstLineIndent p' = FirstLineIndent q).
Proof.
  intros Hp Hq q. exists (convert_question p).
  rewrite rmAutoNum_same, (convert_questions_to_text_lookup doc i p Hp), Hq.
  split; [reflexivity|]. split; [reflexivity|].
  destruct (convert_question_indents p) as [Hl Hf]. fold q in Hl, Hf.
  repeat split; intros; rewrite ?Hl, ?Hf;
    repeat match goal with H : _ = _ |- _ => rewrite H; clear H end; reflexivity.
Qed.

(** C2 (as the code has it). Take a matched paragraph whose text, once the
    numbering is literal, is a run of digits, then '.' or ')', then either
    nothing or one space, then a rest of the line that does not start with
    white space, then the paragraph mark. After processing the text is the
    number and its punctuation, exactly one space, and the rest. *)
Theorem convert_questions_one_space (doc : Document) (i : nat) (p : Paragraph)
    (digits gap rest : str) (punct : ascii) :
  doc !! i = Some p ->
  is_question_paragraph p = true ->
  Text (numbers_to_text ConvertNumbersToText p)
    = digits ++ punct :: gap ++ rest ++ [CR] ->
  digits <> [] -> Forall (fun c => isdigit c = true) digits ->
  char_in ".)" punct = true ->
  gap = [] \/ gap = " " ->
  match rest with c :: _ => isspace c = false | [] => False end ->
  Forall (fun c => dot c = true) rest ->
  exists p',
    (convert_questions_to_text ConvertNumbersToText LeftIndent_raises
       FirstLineIndent_raises percent doc).1 !! i = Some p'
    /\ Text p' = digits ++ punct :: " " ++ rest ++ [CR].
Proof.
  intros Hp Hq Ht Hne Hd Hpu Hgap Hrest Hdot. exists (convert_question p).
  rewrite (convert_questions_to_text_lookup doc i p Hp), Hq.
  split; [reflexivity|].
  unfold convert_question, Converter.convert_question.
  destruct (zero_indents_spec (numbers_to_text ConvertNumbersToText p))
    as (_ & _ & Hz). cbv zeta in Hz. rewrite Hz, Ht.
  rewrite spaced_text_number by assumption. reflexivity.
Qed.

End Loops.

(* --------------------------------------------------------------------- *)
(** ** Runs on small documents *)

(** C3 on the sample document: its first paragraph is a question, and Word
    takes the assignments. *)
Lemma convert_questions_zero_indent_witness :
  exists p',
    (convert_questions_to_text not_applicable never_raises never_raises
       percent_exact sample_document).1 !! 0%nat = Some p'
    /\ RmAutoNum.convert_questions_to_text not_applicable never_raises never_raises
         sample_document !! 0%nat = Some p'
    /\ LeftIndent p' = 0 /\ FirstLineIndent p' = 0.
Proof.
  destruct (convert_questions_zero_indent not_applicable never_raises never_raises
              percent_exact sample_document 0 (numbered_paragraph "3)Solve for x")
              eq_refl eq_refl) as (p' & Hc & Hr & Hzero & _).
  exists p'. split; [exact Hc|]. split; [exact Hr|].
  apply Hzero; reflexivity.
Defined.

(** C3 as stated fails: when Word refuses the indent assignments, the
    error is dropped, the function completes, and the matched paragraph
    keeps the indents it had. *)
Lemma convert_questions_keeps_indent_on_error :
  let p := numbered_paragraph "3)Solve for x" in
  let after :=
    (convert_questions_to_text not_applicable always_raises always_raises
       percent_exact sample_document).1 in
  sample_document !! 0%nat = Some p
  /\ is_question_paragraph p = true
  /\ LeftIndent <$> after !! 0%nat = Some 36
  /\ FirstLineIndent <$> after !! 0%nat = Some (-18)
  /\ RmAutoNum.convert_questions_to_text not_applicable always_raises always_raises
       sample_document = after.
Proof. repeat split; reflexivity. Qed.

(** C2 on the sample document: "3)Solve for x" becomes "3) Solve for x". *)
Lemma convert_questions_one_space_witness :
  exists p',
    (convert_questions_to_text not_applicable never_raises never_raises
       percent_exact sample_document).1 !! 0%nat = Some p'
    /\ Text p' = "3) Solve for x" ++ [CR].
Proof.
  apply (convert_questions_one_space not_applicable never_raises never_raises
           percent_exact sample_document 0 (numbered_paragraph "3)Solve for x")
           "3" [] "Solve for x" ")"%char);
    try reflexivity.
  - discriminate.
  - repeat constructor.
  - left; reflexivity.
  - repeat constructor.
Defined.

(** C2 as stated fails: a matched paragraph "1.  foo", with two spaces after
    the number, keeps both of them. The code adds a space where none follows
    the number and removes none. *)
Lemma convert_questions_keeps_two_spaces :
  let p := numbered_paragraph "1.  foo" in
  let after :=
    (convert_questions_to_text not_applicable never_raises never_raises
       percent_exact [p]).1 in
  is_question_paragraph p = true
  /\ begins_with_number (Text p) = true
  /\ Text <$> after !! 0%nat = Some ("1.  foo" ++ [CR])
  /\ one_space_after_number <$> (Text <$> after !! 0%nat) = Some false.
Proof. repeat split; reflexivity. Qed.

(** The same loop on "3)Solve for x" does put one space after the number. *)
Example convert_questions_adds_space :
  let after :=
    (convert_questions_to_text not_applicable never_raises never_raises
       percent_exact sample_document).1 in
  Text <$> after !! 0%nat = Some ("3) Solve for x" ++ [CR])
  /\ one_space_after_number <$> (Text <$> after !! 0%nat) = Some true
  /\ after !! 1%nat = sample_document !! 1%nat.
Proof. repeat split; reflexivity. Qed.

(** rmAutoNum.py runs the same two loops, without the progress reports. *)
Lemma rmAutoNum_same_conversion (conv : Paragraph -> option Paragraph)
    (left_raises first_raises : Paragraph -> bool)
    (percent : nat -> nat -> Z) (doc : Document) :
  RmAutoNum.convert_questions_to_text conv left_raises first_raises doc
  = (convert_questions_to_text conv left_raises first_raises percent doc).1.
Proof. reflexivity. Qed.

End ConverterFacts.

Module AppFacts.

Import Py PyFacts Converter App AppSpec Samples.

Lemma sub_class_allowed (s : str) : Forall allowed (sub_class forbidden s).
Proof.
  unfold sub_class. apply List.Forall_forall. intros c Hc.
  apply List.filter_In in Hc as [_ Hc]. now apply negb_true_iff in Hc.
Qed.

Lemma sub_class_count (s : str) (c : ascii) :
  allowed c -> count_occ ascii_dec (sub_class forbidden s) c = count_occ ascii_dec s c.
Proof.
  intros Hc. unfold sub_class. induction s as [|a s IH]; simpl; [reflexivity|].
  destruct (ascii_dec a c) as [->|Hne].
  - rewrite Hc. simpl. destruct (ascii_dec c c); [now rewrite IH | congruence].
  - destruct (negb (forbidden a)); simpl; [|exact IH].
    destruct (ascii_dec a c); [congruence | exact IH].
Qed.

Lemma remove_char_id (c : ascii) (s : str) :
  forbidden c = true -> Forall allowed s -> remove_char c s = s.
Proof.
  intros Hc Hs. unfold remove_char. induction Hs as [|a s Ha Hs IH]; simpl; [reflexivity|].
  destruct (eqc a c) eqn:E.
  - apply eqc_true in E as ->. unfold allowed in Ha. congruence.
  - simpl. now rewrite IH.
Qed.

Lemma dropwhile_suffix (p : ascii -> bool) (s : str) :
  exists t, s = t ++ dropwhile p s /\ Forall (fun c => p c = true) t.
Proof.
  induction s as [|a s [t [Ht Hp]]]; simpl.
  - now exists [].
  - destruct (p a) eqn:E.
    + exists (a :: t). split; [simpl; now rewrite <- Ht | now constructor].
    + now exists [].
Qed.

Lemma rstrip_by_prefix (p : ascii -> bool) (s : str) :
  exists t, s = rstrip_by p s ++ t /\ Forall (fun c => p c = true) t.
Proof.
  unfold rstrip_by. destruct (dropwhile_suffix p (rev s)) as [t [Ht Hp]].
  exists (rev t). split.
  - rewrite <- rev_app_distr, <- Ht. symmetry. apply rev_involutive.
  - apply List.Forall_rev. exact Hp.
Qed.

Lemma splitext_scan_app (p : str) (dotIndex : Z) (fuel : nat) (i : Z) :
  (splitext_scan p dotIndex fuel i).1 ++ (splitext_scan p dotIndex fuel i).2 = p.
Proof.
  revert i. induction fuel as [|fuel IH]; intros i; simpl.
  - apply app_nil_r.
  - destruct (i <? dotIndex); [|apply app_nil_r].
    destruct (negb _); [|apply IH].
    simpl. apply firstn_skipn.
Qed.

Lemma splitext_app (p : str) : (splitext p).1 ++ (splitext p).2 = p.
Proof.
  unfold splitext, _splitext. destruct (_ <? _).
  - apply splitext_scan_app.
  - apply app_nil_r.
Qed.

Lemma lower_app (a b : str) : lower (a ++ b) = lower a ++ lower b.
Proof. apply map_app. Qed.

Lemma endswith_lower_docx (root : str) :
  endswith (lower (root ++ ".docx")) ".docx" = true.
Proof. rewrite lower_app. apply endswith_app. Qed.

Section SanitizeFacts.

Variable basename : str -> str.

Lemma sanitize_unfold (name : str) :
  sanitize_filename_keep_parens basename name =
  let base := match trimmed basename name with [] => "document.docx" : str | b => b end in
  if negb (endswith (lower base) ".docx")
  then (splitext base).1 ++ ".docx"
  else base.
Proof.
  unfold sanitize_filename_keep_parens, trimmed, kept.
  rewrite (remove_char_id LF), (remove_char_id CR), (remove_char_id TAB);
    try solve [reflexivity | apply sub_class_allowed].
  destruct (rstrip _ _); reflexivity.
Qed.

Lemma trimmed_allowed (name : str) : Forall allowed (trimmed basename name).
Proof.
  unfold trimmed, rstrip.
  destruct (rstrip_by_prefix (char_in " .") (kept basename name)) as [t [Ht _]].
  pose proof (sub_class_allowed (basename name)) as H. fold (kept basename name) in H.
  rewrite Ht in H. now apply List.Forall_app in H as [H _].
Qed.

Lemma root_allowed (base : str) : Forall allowed base -> Forall allowed (splitext base).1.
Proof.
  intros H. rewrite <- (splitext_app base) in H. now apply List.Forall_app in H as [H _].
Qed.

Lemma docx_allowed : Forall allowed (".docx" : str).
Proof. repeat constructor. Qed.

Lemma document_docx_allowed : Forall allowed ("document.docx" : str).
Proof. repeat constructor. Qed.

(** The three ways out of the function. *)
Lemma sanitize_cases (name : str) :
  let r := sanitize_filename_keep_parens basename name in
  let base := trimmed basename name in
  (base = [] -> r = "document.docx")
  /\ (base <> [] -> endswith (lower base) ".docx" = true -> r = base)
  /\ (base <> [] -> endswith (lower base) ".docx" = false ->
      r = (splitext base).1 ++ ".docx").
Proof.
  cbv zeta. rewrite sanitize_unfold. cbv zeta.
  destruct (trimmed basename name) as [|c b].
  - repeat split; congruence.
  - repeat split; try discriminate; intros _ He; now rewrite He.
Qed.

Lemma sanitize_ends_docx_any_case (name : str) :
  endswith (lower (sanitize_filename_keep_parens basename name)) ".docx" = true.
Proof.
  rewrite sanitize_unfold. cbv zeta.
  destruct (trimmed basename name) as [|c b]; [reflexivity|].
  destruct (endswith (lower (c :: b)) ".docx") eqn:He; cbn [negb];
    [exact He | apply endswith_lower_docx].
Qed.

(** C10 (as the code has it). The sanitised name is never empty and ends with
    ".docx" in some letter case; a name of which nothing is left becomes
    "document.docx"; and a name that does not end with ".docx" in any letter
    case has its extension, if it has one, replaced by ".docx". *)
Theorem sanitize_filename_ends_docx (name : str) :
  let r := sanitize_filename_keep_parens basename name in
  let base := trimmed basename name in
  r <> []
  /\ endswith (lower r) ".docx" = true
  /\ (base = [] -> r = "document.docx")
  /\ (base <> [] -> endswith (lower base) ".docx" = false ->
      r = (splitext base).1 ++ ".docx"
      /\ base = (splitext base).1 ++ (splitext base).2).
Proof.
  cbv zeta. destruct (sanitize_cases name) as (Hempty & _ & Hext).
  pose proof (sanitize_ends_docx_any_case name) as Hends.
  split; [|split; [exact Hends|split; [exact Hempty|]]].
  - intros Hr. rewrite Hr in Hends. discriminate.
  - intros Hne He. split; [now apply Hext | symmetry; apply splitext_app].
Qed.

(** C7 (as the code has it). The result holds none of the disallowed
    characters. Of the base name, every other character is kept by the
    substitution, parentheses included, in its place; trailing spaces and
    dots are then dropped. What is left is returned as it is when it ends with
    ".docx" in some letter case, and otherwise with ".docx" in place of its
    extension ("document.docx" when nothing is left). *)
Theorem sanitize_filename_keep_parens_spec (name : str) :
  let r := sanitize_filename_keep_parens basename name in
  let base := trimmed basename name in
  Forall allowed r
  /\ (allowed "(" /\ allowed ")")
  /\ kept basename name = List.filter (fun c => negb (forbidden c)) (basename name)
  /\ (forall c, allowed c ->
        count_occ ascii_dec (kept basename name) c = count_occ ascii_dec (basename name) c)
  /\ (exists dots, kept basename name = base ++ dots
                   /\ Forall (fun c => char_in " ." c = true) dots)
  /\ (base <> [] -> endswith (lower base) ".docx" = true -> r = base)
  /\ (base <> [] -> endswith (lower base) ".docx" = false ->
      r = (splitext base).1 ++ ".docx")
  /\ (base = [] -> r = "document.docx")
  /\ endswith (lower r) ".docx" = true.
Proof.
  cbv zeta. destruct (sanitize_cases name) as (Hempty & Hkeep & Hext).
  split; [|split; [split; reflexivity | split; [reflexivity |]]].
  - rewrite sanitize_unfold. cbv zeta.
    assert (Hb : Forall allowed
              match trimmed basename name with [] => "document.docx" : str | b => b end).
    { pose proof (trimmed_allowed name) as H.
      destruct (trimmed basename name); [apply document_docx_allowed | exact H]. }
    destruct (negb _); [|exact Hb].
    apply List.Forall_app. split; [now apply root_allowed | apply docx_allowed].
  - split; [intros c Hc; now apply sub_class_count|].
    split; [apply rstrip_by_prefix|].
    split; [exact Hkeep|]. split; [exact Hext|]. split; [exact Hempty|].
    apply sanitize_ends_docx_any_case.
Qed.

End SanitizeFacts.

(** C10 on "a.txt": the extension is replaced. *)
Lemma sanitize_filename_ends_docx_witness :
  sanitize_filename_keep_parens posix_basename "a.txt" = "a.docx".
Proof.
  apply (proj2 (proj2 (proj2 (sanitize_filename_ends_docx posix_basename "a.txt"))));
    [discriminate | reflexivity].
Defined.

(** C7 on a name with a directory, forbidden characters, parentheses and a
    trailing dot and space. *)
Lemma sanitize_filename_keep_parens_spec_witness :
  sanitize_filename_keep_parens posix_basename "dir/my<file> (2).docx. "
  = "myfile (2).docx".
Proof.
  destruct (sanitize_filename_keep_parens_spec posix_basename
              "dir/my<file> (2).docx. ") as (_ & _ & _ & _ & _ & Hkeep & _ & _ & _).
  rewrite Hkeep; [reflexivity | discriminate | reflexivity].
Defined.

(** C10 as stated fails: an upper-case extension is accepted as it is, so the
    result need not end with the lower-case ".docx". *)
Lemma sanitize_filename_keeps_upper_case_extension :
  sanitize_filename_keep_parens posix_basename "REPORT.DOCX" = "REPORT.DOCX"
  /\ endswith "REPORT.DOCX" ".docx" = false.
Proof. split; reflexivity. Qed.

(** C7 as stated fails: parentheses are not always preserved. Those of a
    replaced extension go with it, and so do those of a directory part. *)
Lemma sanitize_filename_drops_parens :
  sanitize_filename_keep_parens posix_basename "notes.(1)" = "notes.docx"
  /\ sanitize_filename_keep_parens posix_basename "(old)/new.docx" = "new.docx"
  /\ forbidden "(" = false /\ forbidden ")" = false.
Proof. repeat split; reflexivity. Qed.

Example allowed_file_example :
  allowed_file "paper (1).docx" = true /\ allowed_file "PAPER.DOCX" = true
  /\ allowed_file "paper.doc" = false /\ allowed_file "docx" = false
  /\ allowed_file "paper.docx " = false.
Proof. repeat split; reflexivity. Qed.

Example sanitize_example_1 :
  sanitize_filename_keep_parens posix_basename "dir/my<file> (2).docx. " = "myfile (2).docx".
Proof. reflexivity. Qed.

Example sanitize_example_2 :
  sanitize_filename_keep_parens posix_basename "a.txt" = "a.docx"
  /\ sanitize_filename_keep_parens posix_basename "..." = "document.docx"
  /\ sanitize_filename_keep_parens posix_basename "draft (2)" = "draft (2).docx".
Proof. repeat split; reflexivity. Qed.

(* --------------------------------------------------------------------- *)
(** ** The job registry and the worker *)

Lemma status_of_insert (J : gmap str Job) (q : list str) (wk : Worker)
    (job_id other : str) (job : Job) :
  status_of other {| JOBS := <[job_id := job]> J; JOB_QUEUE := q; worker := wk |}
  = if decide (job_id = other) then Some (status job) else status <$> J !! other.
Proof.
  unfold status_of. simpl. rewrite lookup_insert. case_decide; reflexivity.
Qed.

Lemma setitem_Some (job_id : str) (f : Job -> Job) (J J' : gmap str Job) :
  setitem job_id f J = Some J' ->
  exists job, J !! job_id = Some job /\ J' = <[job_id := f job]> J.
Proof.
  unfold setitem. destruct (J !! job_id) as [job|]; [|discriminate].
  intros [= <-]. eauto.
Qed.

Lemma invariant_initial : invariant initial.
Proof.
  split; simpl; try discriminate.
  - constructor.
  - intros ? H. inversion H.
Qed.

Lemma pct_insert (s : System) (J : gmap str Job) (job_id : str) (job : Job)
    (q : list str) (wk : Worker) :
  pct_in_range s -> J = JOBS s -> 0 <= processing_pct job <= 100 ->
  pct_in_range {| JOBS := <[job_id := job]> J; JOB_QUEUE := q; worker := wk |}.
Proof.
  intros Hs -> Hj other job'. simpl. rewrite lookup_insert.
  case_decide; [intros [= <-]; exact Hj | apply Hs].
Qed.

Lemma invariant_step (s s' : System) : invariant s -> step s s' -> invariant s'.
Proof.
  intros [Hnd Hq Hp Hd Ha Hpct] Hstep.
  destruct Hstep as [s job_id name input output Hnew
                    | s job_id q Hw Hqueue
                    | s job_id J Hw Hmark
                    | s job_id Hw Hmark
                    | s job_id pct Hw
                    | s job_id final J Hw Hmark
                    | s job_id e J Hw Hmark].
  - (* enqueue *)
    assert (Hfresh : job_id ∉ JOB_QUEUE s).
    { intros Hin. apply Hq in Hin. unfold status_of in Hin.
      rewrite Hnew in Hin. discriminate. }
    split; unfold enqueue; simpl.
    + apply NoDup_app. split; [exact Hnd|]. split; [|apply NoDup_singleton].
      intros x Hx Hx'. apply list_elem_of_singleton in Hx'. subst. tauto.
    + intros other Hin. rewrite status_of_insert. case_decide; [reflexivity|].
      apply elem_of_app in Hin as [Hin|Hin]; [now apply Hq|].
      apply list_elem_of_singleton in Hin. congruence.
    + intros other Hw. destruct (Hp other Hw) as [Hst Hnin].
      rewrite status_of_insert. case_decide.
      * subst. unfold status_of in Hst. rewrite Hnew in Hst. discriminate.
      * split; [exact Hst|]. intros Hin. apply elem_of_app in Hin as [Hin|Hin];
          [tauto | apply list_elem_of_singleton in Hin; congruence].
    + intros other Hw. specialize (Hd other Hw).
      rewrite status_of_insert. case_decide; [|exact Hd].
      subst. unfold status_of in Hd. rewrite Hnew in Hd. discriminate.
    + exact Ha.
    + apply (pct_insert s); [exact Hpct | reflexivity | simpl; lia].
  - (* get *)
    rewrite Hqueue in Hnd, Hq. apply NoDup_cons in Hnd as [Hnin Hnd].
    assert (Hst : status_of job_id s = Some Status.queued) by (apply Hq; left).
    unfold status_of in Hst. destruct (JOBS s !! job_id) as [job|] eqn:Hj;
      [|discriminate].
    split; simpl; unfold status_of; simpl.
    + exact Hnd.
    + intros other Hin. apply Hq. now right.
    + intros other [= <-]. split; [now rewrite Hj | exact Hnin].
    + discriminate.
    + discriminate.
    + exact Hpct.
  - (* processing *)
    apply setitem_Some in Hmark as [job [Hj ->]].
    destruct (Hp job_id Hw) as [Hst Hnin].
    split; unfold with_jobs; simpl.
    + exact Hnd.
    + intros other Hin. rewrite status_of_insert. case_decide; [subst; tauto|].
      now apply Hq.
    + discriminate.
    + intros other [= <-]. rewrite status_of_insert. now rewrite decide_True.
    + discriminate.
    + apply (pct_insert s); [exact Hpct | reflexivity | simpl; lia].
  - (* key error: cannot happen *)
    destruct (Hp job_id Hw) as [Hst _]. unfold mark_processing, setitem in Hmark.
    unfold status_of in Hst. destruct (JOBS s !! job_id); discriminate.
  - (* progress *)
    specialize (Hd job_id Hw). unfold status_of in Hd.
    destruct (JOBS s !! job_id) as [job|] eqn:Hj; [|discriminate].
    injection Hd as Hd.
    assert (Hon : on_progress job_id pct (JOBS s)
                  = <[job_id := set_processing_pct (Z.max 0 (Z.min 100 pct)) job]> (JOBS s)).
    { unfold on_progress. now rewrite Hj. }
    rewrite Hon. split; unfold with_jobs; simpl.
    + exact Hnd.
    + intros other Hin. rewrite status_of_insert. case_decide.
      * subst. apply Hq in Hin. unfold status_of in Hin. rewrite Hj in Hin.
        simpl in *. congruence.
      * now apply Hq.
    + discriminate.
    + intros other [= <-]. rewrite status_of_insert, decide_True by reflexivity.
      simpl. now rewrite Hd.
    + discriminate.
    + apply (pct_insert s); [exact Hpct | reflexivity | simpl; lia].
  - (* done *)
    apply setitem_Some in Hmark as [job [Hj ->]]. specialize (Hd job_id Hw).
    split; unfold with_jobs; simpl; try discriminate.
    + exact Hnd.
    + intros other Hin. rewrite status_of_insert. case_decide; [|now apply Hq].
      subst. apply Hq in Hin. congruence.
    + apply (pct_insert s); [exact Hpct | reflexivity | simpl; lia].
  - (* error *)
    apply setitem_Some in Hmark as [job [Hj ->]]. specialize (Hd job_id Hw).
    split; unfold with_jobs; simpl; try discriminate.
    + exact Hnd.
    + intros other Hin. rewrite status_of_insert. case_decide; [|now apply Hq].
      subst. apply Hq in Hin. congruence.
    + apply (pct_insert s); [exact Hpct | reflexivity |].
      simpl. apply (Hpct job_id job Hj).
Qed.

Lemma run_invariant (states : list System) :
  run states -> Forall invariant states.
Proof.
  induction 1 as [|s s' past Hrun IH Hstep].
  - constructor; [apply invariant_initial | constructor].
  - constructor; [|exact IH]. inversion IH; subst.
    eapply invariant_step; eassumption.
Qed.

(** One step changes the status of a job id along the life cycle, or not
    at all. *)
Lemma step_status (s s' : System) (other : str) :
  invariant s -> step s s' ->
  status_of other s' = status_of other s
  \/ lifecycle (status_of other s) (status_of other s').
Proof.
  intros [Hnd Hq Hp Hd Ha Hpct] Hstep.
  destruct Hstep as [s job_id name input output Hfresh
                    | s job_id q Hw Hqueue
                    | s job_id J Hw Hmark
                    | s job_id Hw Hmark
                    | s job_id pct Hw
                    | s job_id final J Hw Hmark
                    | s job_id e J Hw Hmark].
  - unfold enqueue. rewrite status_of_insert. case_decide; [|now left].
    subst. right. unfold status_of. rewrite Hfresh. constructor.
  - now left.
  - apply setitem_Some in Hmark as [job [Hj ->]].
    destruct (Hp job_id Hw) as [Hst _].
    unfold with_jobs. rewrite status_of_insert. case_decide; [|now left].
    subst. right. rewrite Hst. constructor.
  - now left.
  - left. unfold with_jobs, on_progress.
    destruct (JOBS s !! job_id) as [job|] eqn:Hj; [|reflexivity].
    rewrite status_of_insert. case_decide; [|reflexivity].
    subst. unfold status_of. now rewrite Hj.
  - apply setitem_Some in Hmark as [job [Hj ->]]. specialize (Hd job_id Hw).
    unfold with_jobs. rewrite status_of_insert. case_decide; [|now left].
    subst. right. rewrite Hd. constructor.
  - apply setitem_Some in Hmark as [job [Hj ->]]. specialize (Hd job_id Hw).
    unfold with_jobs. rewrite status_of_insert. case_decide; [|now left].
    subst. right. rewrite Hd. constructor.
Qed.

Lemma status_history_cons (job_id : str) (s' s : System) (past : list System) :
  status_history job_id (s' :: s :: past)
  = if bool_decide (status_of job_id s' = status_of job_id s)
    then status_history job_id (s :: past)
    else status_of job_id s' :: status_history job_id (s :: past).
Proof. reflexivity. Qed.

Lemma status_history_head (job_id : str) (s : System) (past : list System) :
  exists older, status_history job_id (s :: past) = status_of job_id s :: older.
Proof.
  revert s. induction past as [|s0 past IH]; intros s.
  - now exists [].
  - rewrite status_history_cons. case_bool_decide as E.
    + rewrite E. apply IH.
    + eauto.
Qed.

Lemma lifecycle_histories_grow (before after : option Status.t)
    (older : list (option Status.t)) :
  In (before :: older) lifecycle_histories ->
  lifecycle before after ->
  In (after :: before :: older) lifecycle_histories.
Proof.
  unfold lifecycle_histories. simpl. intros Hin Hl.
  destruct Hl; repeat (destruct Hin as [Hin|Hin]; [try discriminate|]);
    try contradiction; injection Hin as <-; tauto.
Qed.

(** The worker never waits for the registry: the job it holds is there. *)
Lemma worker_not_stuck (s : System) (job_id : str) :
  invariant s ->
  (worker s = Picked job_id -> is_Some (mark_processing job_id (JOBS s)))
  /\ (worker s = InProcessDoc job_id ->
      (forall final, exists J,
          mark_done job_id final (JOBS s) = Some J
          /\ status_of job_id (with_jobs J Waiting s) = Some Status.done)
      /\ (forall e, exists J,
          mark_error job_id e (JOBS s) = Some J
          /\ status_of job_id (with_jobs J Waiting s) = Some Status.error)).
Proof.
  intros [Hnd Hq Hp Hd Ha Hpct]. split.
  - intros Hw. destruct (Hp job_id Hw) as [Hst _]. unfold status_of in Hst.
    unfold mark_processing, setitem.
    destruct (JOBS s !! job_id); [eauto | discriminate].
  - intros Hw. specialize (Hd job_id Hw). unfold status_of in Hd.
    destruct (JOBS s !! job_id) as [job|] eqn:Hj; [|discriminate].
    split; intros x; unfold mark_done, mark_error, setitem; rewrite Hj;
      eexists; (split; [reflexivity|]); unfold with_jobs;
      rewrite status_of_insert, decide_True by reflexivity; reflexivity.
Qed.

(** Along every run, a job id goes through: no job, then queued, then
    processing, then one of done and error. *)
Lemma status_history_lifecycle (s : System) (past : list System) (job_id : str) :
  run (s :: past) ->
  In (status_history job_id (s :: past)) lifecycle_histories.
Proof.
  intros Hrun.
  remember (s :: past) as states eqn:E. revert s past E.
  induction Hrun as [|s0 s1 past0 Hrun IH Hstep]; intros s past E.
  - injection E as <- <-. left. reflexivity.
  - injection E as <- <-. specialize (IH s0 past0 eq_refl).
    assert (Hinv : invariant s0).
    { apply run_invariant in Hrun. now inversion Hrun. }
    rewrite status_history_cons. case_bool_decide as Hsame; [exact IH|].
    destruct (step_status s0 s1 job_id Hinv Hstep) as [Heq|Hl]; [contradiction|].
    destruct (status_history_head job_id s0 past0) as [older Ho].
    rewrite Ho in *. now apply lifecycle_histories_grow.
Qed.

(** So the status a job id has tells its whole history. *)
Lemma status_history_by_status (s : System) (past : list System) (job_id : str) :
  run (s :: past) ->
  status_history job_id (s :: past) = history_of (status_of job_id s).
Proof.
  intros Hrun. pose proof (status_history_lifecycle s past job_id Hrun) as Hin.
  destruct (status_history_head job_id s past) as [older Ho].
  rewrite Ho in *. unfold lifecycle_histories in Hin. simpl in Hin.
  repeat (destruct Hin as [Hin|Hin]; [injection Hin as <- <-; reflexivity|]).
  contradiction.
Qed.

(** A run goes on along any sequence of steps. *)
Lemma run_rtc (s s' : System) (past : list System) :
  run (s :: past) -> rtc step s s' -> exists later, reaches later (s :: past) s'.
Proof.
  intros Hrun Hsteps. revert past Hrun.
  induction Hsteps as [s|s s1 s' Hstep _ IH]; intros past Hrun.
  - exists (s :: past). split; [exact Hrun|]. split; [now exists []|reflexivity].
  - destruct (IH (s :: past)) as (later & Hr & [more ->] & Hh).
    { now apply run_step. }
    exists (more ++ s1 :: s :: past). split; [exact Hr|]. split; [|exact Hh].
    exists (more ++ [s1]). now rewrite <- app_assoc.
Qed.

Lemma reaches_history (later earlier : list System) (s : System) (job_id : str) :
  reaches later earlier s ->
  status_history job_id later = history_of (status_of job_id s).
Proof.
  intros (Hrun & _ & Hh). destruct later as [|s0 later]; [discriminate|].
  injection Hh as ->. now apply status_history_by_status.
Qed.

(** C6. In every state of every run, the progress percentage of every job
    is between 0 and 100: the callback clamps whatever it is given. *)
Theorem progress_pct_in_range (states : list System) (s : System)
    (job_id : str) (job : Job) :
  run states -> In s states -> JOBS s !! job_id = Some job ->
  0 <= processing_pct job <= 100.
Proof.
  intros Hrun Hin Hj. apply run_invariant in Hrun.
  rewrite List.Forall_forall in Hrun. apply (inv_pct s (Hrun s Hin) job_id job Hj).
Qed.

Lemma on_progress_clamps (J : gmap str Job) (job_id : str) (pct : Z) (job : Job) :
  on_progress job_id pct J !! job_id = Some job ->
  (forall old, J !! job_id = Some old -> 0 <= processing_pct old <= 100) ->
  0 <= processing_pct job <= 100.
Proof.
  unfold on_progress. destruct (J !! job_id) as [old|] eqn:Hj.
  - rewrite lookup_insert_eq. intros [= <-] _. simpl. lia.
  - rewrite Hj. discriminate.
Qed.

(* --------------------------------------------------------------------- *)
(** ** The handlers *)

Section HandlerFacts.

Variable host : Host.
Variable save : World -> str -> FileStorage.t -> World.

(** C5. For a job id that is not in the registry, the progress poll and the
    result download both answer 404 with an error body, and so neither a
    status nor a file. *)
Theorem unknown_job_not_found (s : System) (job_id : str) :
  JOBS s !! job_id = None ->
  progress s job_id = jsonify (error_body "Invalid job id") 404
  /\ result host s job_id = jsonify (error_body "Invalid job id") 404.
Proof. intros H. unfold progress, result. now rewrite H. Qed.

Lemma process_doc_missing_file (w : World) (input : str) (output : option str)
    (with_progress : bool) :
  path_exists w input = false ->
  run_process_doc host w input output with_progress
  = (w, [], inl (FileNotFoundError ("File not found: " ++ input))).
Proof. intros H. unfold run_process_doc, process_doc. now rewrite H. Qed.

(** C8. For an input path that does not exist, [process_doc] raises
    FileNotFoundError at once: no COM call is made and the world is as it
    was. When that happens in the synchronous conversion, the handler flashes
    that the uploaded file could not be found and goes back to the index. *)
Theorem missing_file_not_found :
  (forall (w : World) (input : str) (output : option str) (with_progress : bool),
      path_exists w input = false ->
      run_process_doc host w input output with_progress
      = (w, [], inl (FileNotFoundError ("File not found: " ++ input))))
  /\ (forall (w : World) (req : Request) (f : FileStorage.t) (tmpdir uuid : str),
         file req = Some f ->
         FileStorage.filename f <> [] ->
         allowed_file (FileStorage.filename f) = true ->
         let name := sanitize host (FileStorage.filename f) in
         let input := join host tmpdir (uuid ++ "_" ++ name) in
         path_exists (save w input f) input = false ->
         convert host save w req tmpdir uuid
         = (remove input (save w input f),
            flash_and_redirect "Uploaded file could not be found." "error" "index")).
Proof.
  split; [exact process_doc_missing_file|].
  intros w req f tmpdir uuid Hf Hne Hok name input Hmissing.
  unfold convert. rewrite Hf.
  destruct (FileStorage.filename f) as [|c n] eqn:E; [congruence|].
  rewrite Hok. cbn [negb].
  fold name. fold input. rewrite process_doc_missing_file by exact Hmissing.
  reflexivity.
Qed.

(** [start] leaves the shared state as it was, or adds one queued job. *)
Lemma start_enqueues (s : System) (w : World) (req : Request) (tmpdir uuid job_id : str) :
  JOBS s !! job_id = None ->
  (start host save s w req tmpdir uuid job_id).1.1 = s
  \/ step s (start host save s w req tmpdir uuid job_id).1.1.
Proof.
  intros Hfresh. unfold start. destruct (file req) as [f|]; [|now left].
  destruct (FileStorage.filename f) as [|c n]; [now left|].
  destruct (negb _); [now left|]. right. simpl. now constructor.
Qed.

(** So does the loop of [start_multi], one job after the other, when the job
    ids are new and differ from each other. *)
Lemma start_multi_loop_enqueues
    (uploads : list (FileStorage.t * (str * str * str)))
    (s : System) (w : World) (jobs : list (str * str)) :
  NoDup (map (fun u => u.2.2) uploads) ->
  Forall (fun u => JOBS s !! u.2.2 = None) uploads ->
  rtc step s (start_multi_loop host save s w uploads jobs).1.1.
Proof.
  revert s w jobs.
  induction uploads as [|[f [[tmpdir uuid] job_id]] uploads IH];
    intros s w jobs Hnd Hnew; simpl.
  - apply rtc_refl.
  - destruct (FileStorage.filename f) as [|c n]; [apply rtc_refl|].
    destruct (negb _); [apply rtc_refl|].
    simpl in Hnd. apply NoDup_cons in Hnd as [Hnotin Hnd].
    apply Forall_cons in Hnew as [Hid Hnew]. simpl in Hid.
    eapply rtc_l; [apply (step_enqueue s job_id); exact Hid|].
    apply IH; [exact Hnd|].
    rewrite Forall_forall in Hnew |- *. intros u Hu. unfold enqueue. simpl.
    rewrite lookup_insert_ne; [now apply Hnew|].
    intros ->. apply Hnotin. apply list_elem_of_fmap. now exists u.
Qed.

(** [_run_job] on the job the worker holds is a sequence of steps of the
    system, and it ends with the worker back on the queue. *)
Lemma run_job_steps (s : System) (w w' : World) (job_id input output : str)
    (J : gmap str Job) :
  worker s = Picked job_id ->
  _run_job host (JOBS s) w job_id input output = Some (J, w') ->
  rtc step s (with_jobs J Waiting s).
Proof.
  intros Hw. unfold _run_job.
  destruct (mark_processing job_id (JOBS s)) as [J1|] eqn:H1; [|discriminate].
  destruct (run_process_doc host w input (Some output) true) as [[w1 calls] res].
  intros H.
  eapply rtc_l; [apply (step_processing s job_id J1 Hw H1)|].
  set (s1 := with_jobs J1 (InProcessDoc job_id) s).
  assert (Hloop : forall calls J0,
             rtc step (with_jobs J0 (InProcessDoc job_id) s)
               (with_jobs (fold_left (fun J pct => on_progress job_id pct J) calls J0)
                  (InProcessDoc job_id) s)).
  { clear. intros calls. induction calls as [|pct calls IH]; intros J0; simpl.
    - apply rtc_refl.
    - eapply rtc_l; [|apply IH].
      apply (step_progress (with_jobs J0 (InProcessDoc job_id) s) job_id pct).
      reflexivity. }
  eapply rtc_trans; [apply Hloop|].
  set (J2 := fold_left _ calls J1) in *.
  apply rtc_once. destruct res as [e|final].
  - destruct (mark_error job_id e J2) as [J3|] eqn:H3; [|discriminate].
    injection H as <- <-.
    apply (step_error (with_jobs J2 (InProcessDoc job_id) s) job_id e J3);
      [reflexivity | exact H3].
  - destruct (mark_done job_id final J2) as [J3|] eqn:H3; [|discriminate].
    injection H as <- <-.
    apply (step_done (with_jobs J2 (InProcessDoc job_id) s) job_id final J3);
      [reflexivity | exact H3].
Qed.

(** [_run_job] on a job of the registry returns, with the job done or in
    error. *)
Lemma run_job_finishes (J : gmap str Job) (w : World) (job_id input output : str)
    (job : Job) :
  J !! job_id = Some job ->
  exists J' w' job',
    _run_job host J w job_id input output = Some (J', w')
    /\ J' !! job_id = Some job'
    /\ (status job' = Status.done \/ status job' = Status.error).
Proof.
  intros Hj. unfold _run_job, mark_processing, setitem. rewrite Hj.
  destruct (run_process_doc host w input (Some output) true) as [[w1 calls] res].
  set (J1 := <[job_id := _]> J).
  assert (Hfold : forall calls J0, is_Some (J0 !! job_id) ->
            is_Some (fold_left (fun J pct => on_progress job_id pct J) calls J0 !! job_id)).
  { clear. intros calls. induction calls as [|pct calls IH]; intros J0 H0; simpl;
      [exact H0|].
    apply IH. unfold on_progress. destruct (J0 !! job_id) eqn:E; [|now rewrite E].
    rewrite lookup_insert_eq. eauto. }
  destruct (Hfold calls J1) as [job2 H2].
  { unfold J1. rewrite lookup_insert_eq. eauto. }
  destruct res as [e|final]; unfold mark_error, mark_done, setitem; rewrite H2;
    eexists _, _, _; (split; [reflexivity|]); rewrite lookup_insert_eq;
    (split; [reflexivity|]); simpl; auto.
Qed.

(** [_run_job] on a job of the registry returns, with the job done when
    [process_doc] returned and in error when it raised. *)
Lemma run_job_status (J : gmap str Job) (w : World) (job_id input output : str)
    (job : Job) :
  J !! job_id = Some job ->
  exists J' w' job',
    _run_job host J w job_id input output = Some (J', w')
    /\ J' !! job_id = Some job'
    /\ status job'
       = match (run_process_doc host w input (Some output) true).2 with
         | inr _ => Status.done
         | inl _ => Status.error
         end.
Proof.
  intros Hj. unfold _run_job, mark_processing, setitem. rewrite Hj.
  destruct (run_process_doc host w input (Some output) true) as [[w1 calls] res].
  set (J1 := <[job_id := _]> J).
  assert (Hfold : forall calls J0, is_Some (J0 !! job_id) ->
            is_Some (fold_left (fun J pct => on_progress job_id pct J) calls J0 !! job_id)).
  { clear. intros calls. induction calls as [|pct calls IH]; intros J0 H0; simpl;
      [exact H0|].
    apply IH. unfold on_progress. destruct (J0 !! job_id) eqn:E; [|now rewrite E].
    rewrite lookup_insert_eq. eauto. }
  destruct (Hfold calls J1) as [job2 H2].
  { unfold J1. rewrite lookup_insert_eq. eauto. }
  destruct res as [e|final]; unfold mark_error, mark_done, setitem; rewrite H2;
    eexists _, _, _; (split; [reflexivity|]); rewrite lookup_insert_eq;
    (split; [reflexivity|]); reflexivity.
Qed.

Lemma start_multi_state (s : System) (w : World) (req : Request)
    (fresh : nat -> str * str * str) :
  (start_multi host save s w req fresh).1.1
  = (start_multi_loop host save s w (uploads_of req fresh) []).1.1.
Proof.
  unfold start_multi, uploads_of. now destruct (files_list req).
Qed.

(** The loop of [start_multi] on files it accepts, with job ids that differ
    from each other: each of them names a queued job in the end. *)
Lemma start_multi_loop_queued
    (uploads : list (FileStorage.t * (str * str * str)))
    (s : System) (w : World) (jobs : list (str * str)) :
  NoDup (map (fun u => u.2.2) uploads) ->
  Forall (fun u => accepted u.1) uploads ->
  let s' := (start_multi_loop host save s w uploads jobs).1.1 in
  (forall u, In u uploads -> status_of u.2.2 s' = Some Status.queued)
  /\ (forall id, ~ In id (map (fun u => u.2.2) uploads) ->
      JOBS s' !! id = JOBS s !! id).
Proof.
  revert s w jobs.
  induction uploads as [|[f [[tmpdir uuid] job_id]] uploads IH];
    intros s w jobs Hnd Hok; cbv zeta.
  - split; [intros u []|reflexivity].
  - apply Forall_cons in Hok as [[Hne Hal] Hok]. simpl in Hne, Hal.
    cbn [map snd] in Hnd. apply NoDup_cons in Hnd as [Hnotin Hnd].
    cbn [start_multi_loop].
    destruct (FileStorage.filename f) as [|c n] eqn:E; [congruence|].
    rewrite Hal. cbn [negb].
    edestruct IH as [Hq Hkeep]; [exact Hnd|exact Hok|].
    cbv zeta in Hq, Hkeep. split.
    + intros u [<-|Hu]; [|now apply Hq].
      cbn [snd]. unfold status_of. rewrite Hkeep.
      * unfold enqueue. cbn [JOBS]. now rewrite lookup_insert_eq.
      * intros Hin. apply Hnotin. now apply list_elem_of_In.
    + intros id Hid. rewrite Hkeep.
      * unfold enqueue. cbn [JOBS]. apply lookup_insert_ne.
        intros ->. apply Hid. now left.
      * intros Hin. apply Hid. now right.
Qed.

(** C4. Along every run of the system, a job id goes through: no job, then
    queued, then processing, then one of done and error; each change happens
    at most once and there are no others. The code makes these changes:
    [start] creates the job of an accepted upload queued, and so does
    [start_multi] for each of its files; [_run_job], called for the job the
    worker took from the queue, returns after the job was processing and
    then done, when [process_doc] returned, or in error, when it raised;
    a turn of the worker takes the first job of the queue through all of
    that. In between, the worker is never stuck on the job it holds. *)
Theorem job_status_lifecycle (s : System) (past : list System) (job_id : str) :
  run (s :: past) ->
  In (status_history job_id (s :: past)) lifecycle_histories
  /\ (forall (w : World) (req : Request) (f : FileStorage.t) (tmpdir uuid : str),
        JOBS s !! job_id = None ->
        file req = Some f -> accepted f ->
        let s' := (start host save s w req tmpdir uuid job_id).1.1 in
        run (s' :: s :: past)
        /\ status_history job_id (s' :: s :: past) = [Some Status.queued; None]
        /\ JOB_QUEUE s' = JOB_QUEUE s ++ [job_id])
  /\ (forall (w : World) (req : Request) (fresh : nat -> str * str * str),
        NoDup (map (fun u => u.2.2) (uploads_of req fresh)) ->
        Forall (fun u => JOBS s !! u.2.2 = None) (uploads_of req fresh) ->
        Forall (fun u => accepted u.1) (uploads_of req fresh) ->
        exists later,
          reaches later (s :: past) (start_multi host save s w req fresh).1.1
          /\ forall u, In u (uploads_of req fresh) ->
               status_history u.2.2 later = [Some Status.queued; None])
  /\ (forall (w : World) (input output : str),
        worker s = Picked job_id ->
        exists J w' later,
          _run_job host (JOBS s) w job_id input output = Some (J, w')
          /\ reaches later (s :: past) (with_jobs J Waiting s)
          /\ status_history job_id later
             = match (run_process_doc host w input (Some output) true).2 with
               | inr _ =>
                   [Some Status.done; Some Status.processing;
                    Some Status.queued; None]
               | inl _ =>
                   [Some Status.error; Some Status.processing;
                    Some Status.queued; None]
               end)
  /\ (forall (w : World) (q : list str),
        worker s = Waiting -> JOB_QUEUE s = job_id :: q ->
        exists job s' w' later,
          JOBS s !! job_id = Some job
          /\ worker_turn host s w = Some (s', w')
          /\ JOB_QUEUE s' = q
          /\ reaches later (s :: past) s'
          /\ status_history job_id later
             = match (run_process_doc host w (input_path job)
                        (Some (output_path job)) true).2 with
               | inr _ =>
                   [Some Status.done; Some Status.processing;
                    Some Status.queued; None]
               | inl _ =>
                   [Some Status.error; Some Status.processing;
                    Some Status.queued; None]
               end)
  /\ (worker s = Picked job_id -> is_Some (mark_processing job_id (JOBS s)))
  /\ (worker s = InProcessDoc job_id ->
      (forall final, exists J,
          mark_done job_id final (JOBS s) = Some J
          /\ status_of job_id (with_jobs J Waiting s) = Some Status.done)
      /\ (forall e, exists J,
          mark_error job_id e (JOBS s) = Some J
          /\ status_of job_id (with_jobs J Waiting s) = Some Status.error)).
Proof.
  intros Hrun.
  assert (Hinv : invariant s).
  { apply run_invariant in Hrun. now inversion Hrun. }
  split; [now apply status_history_lifecycle|].
  split; [|split; [|split; [|split; [|now apply worker_not_stuck]]]].
  - (* start *)
    intros w req f tmpdir uuid Hfresh Hf [Hne Hal]. unfold start. rewrite Hf.
    destruct (FileStorage.filename f) as [|c n] eqn:E; [congruence|].
    rewrite Hal. cbn [negb fst]. cbv zeta.
    assert (Hrun' : run (enqueue job_id (sanitize host (c :: n))
                           (join host tmpdir (uuid ++ "_" ++ sanitize host (c :: n)))
                           (join host (out_dir host) (sanitize host (c :: n))) s
                         :: s :: past)).
    { apply run_step; [exact Hrun|]. now apply step_enqueue. }
    split; [exact Hrun'|]. split; [|reflexivity].
    rewrite (status_history_by_status _ _ job_id Hrun').
    unfold enqueue. rewrite status_of_insert, decide_True by reflexivity.
    reflexivity.
  - (* start_multi *)
    intros w req fresh Hnd Hnew Hok. rewrite start_multi_state.
    destruct (run_rtc s (start_multi_loop host save s w (uploads_of req fresh) []).1.1
                past Hrun) as [later Hlater].
    { now apply start_multi_loop_enqueues. }
    exists later. split; [exact Hlater|]. intros u Hu.
    rewrite (reaches_history _ _ _ u.2.2 Hlater).
    destruct (start_multi_loop_queued (uploads_of req fresh) s w [] Hnd Hok)
      as [Hq _].
    cbv zeta in Hq. now rewrite (Hq u Hu).
  - (* _run_job *)
    intros w input output Hw.
    destruct (inv_picked s Hinv job_id Hw) as [Hst _].
    unfold status_of in Hst.
    destruct (JOBS s !! job_id) as [job|] eqn:Hj; [|discriminate].
    destruct (run_job_status (JOBS s) w job_id input output job Hj)
      as (J & w' & job' & Hjob & Hj' & Hstatus).
    destruct (run_rtc s (with_jobs J Waiting s) past Hrun) as [later Hlater].
    { now apply (run_job_steps s w w' job_id input output J). }
    exists J, w', later. split; [exact Hjob|]. split; [exact Hlater|].
    rewrite (reaches_history _ _ _ job_id Hlater).
    unfold status_of, with_jobs. cbn [JOBS]. rewrite Hj'. cbn [fmap option_fmap option_map].
    rewrite Hstatus.
    now destruct (run_process_doc host w input (Some output) true).2.
  - (* worker_turn *)
    intros w q Hw Hqueue.
    assert (Hst : status_of job_id s = Some Status.queued).
    { apply (inv_queue_queued s Hinv). rewrite Hqueue. left. }
    unfold status_of in Hst.
    destruct (JOBS s !! job_id) as [job|] eqn:Hj; [|discriminate].
    set (picked := {| JOBS := JOBS s; JOB_QUEUE := q; worker := Picked job_id |}).
    assert (Hrun' : run (picked :: s :: past)).
    { apply run_step; [exact Hrun|].
      pose proof (step_get s job_id q Hw Hqueue) as Hstep.
      now rewrite Hj in Hstep. }
    destruct (run_job_status (JOBS s) w job_id (input_path job) (output_path job)
                job Hj) as (J & w' & job' & Hjob & Hj' & Hstatus).
    destruct (run_rtc picked (with_jobs J Waiting picked) (s :: past) Hrun')
      as (later & Hr & [more ->] & Hh).
    { now apply (run_job_steps picked w w' job_id (input_path job)
                   (output_path job) J). }
    exists job, (with_jobs J Waiting picked), w', (more ++ picked :: s :: past).
    split; [reflexivity|]. split.
    { unfold worker_turn. rewrite Hqueue, Hj, Hjob, Hw. reflexivity. }
    split; [reflexivity|]. split.
    { split; [exact Hr|]. split; [|exact Hh].
      exists (more ++ [picked]). now rewrite <- app_assoc. }
    rewrite (reaches_history (more ++ picked :: s :: past) (picked :: s :: past)
               (with_jobs J Waiting picked) job_id).
    2:{ split; [exact Hr|]. split; [now exists more|exact Hh]. }
    unfold status_of, with_jobs. cbn [JOBS]. rewrite Hj'.
    cbn [fmap option_fmap option_map]. rewrite Hstatus.
    now destruct (run_process_doc host w (input_path job) (Some (output_path job))
                    true).2.
Qed.

End HandlerFacts.

(* --------------------------------------------------------------------- *)
(** ** Runs on small inputs *)

Lemma sample_run_is_run : run sample_run.
Proof.
  unfold sample_run.
  apply run_step; [apply run_step; [apply run_step; [apply run_step;
    [apply run_step; [apply run_start|]|]|]|]|].
  - apply step_enqueue. reflexivity.
  - apply (step_get run_1 "job-1" []); reflexivity.
  - apply (step_processing run_2 "job-1"); [reflexivity | vm_compute; reflexivity].
  - apply (step_progress run_3 "job-1" 250). reflexivity.
  - apply (step_done run_4 "job-1" "/srv/app/convertedDocx/a.docx");
      [reflexivity | vm_compute; reflexivity].
Qed.

(** C4 on one upload: [start] makes the job queued, and the turn of the
    worker that follows takes it through processing to done. *)
Lemma job_status_lifecycle_witness :
  let s1 := (start sample_host stored initial empty_world sample_request
               "/tmp/up" "u" "job-1").1.1 in
  let w1 := (start sample_host stored initial empty_world sample_request
               "/tmp/up" "u" "job-1").1.2 in
  run [s1; initial]
  /\ status_history "job-1" [s1; initial] = [Some Status.queued; None]
  /\ exists s' w' later,
       worker_turn sample_host s1 w1 = Some (s', w')
       /\ reaches later [s1; initial] s'
       /\ status_history "job-1" later
          = [Some Status.done; Some Status.processing; Some Status.queued; None].
Proof.
  intros s1 w1.
  destruct (job_status_lifecycle sample_host stored initial [] "job-1" run_start)
    as (_ & Hstart & _).
  destruct (Hstart empty_world sample_request
              {| FileStorage.filename := "paper (1).docx";
                 FileStorage.stream := sample_document |} "/tmp/up" "u")
    as (Hrun & Hqueued & _);
    [reflexivity | reflexivity | split; [discriminate | reflexivity] |].
  split; [exact Hrun|]. split; [exact Hqueued|].
  destruct (job_status_lifecycle sample_host stored s1 [initial] "job-1" Hrun)
    as (_ & _ & _ & _ & Hturn & _).
  destruct (Hturn w1 [] eq_refl eq_refl)
    as (job & s' & w' & later & Hjob & Hw & _ & Hreach & Hhist).
  exists s', w', later. split; [exact Hw|]. split; [exact Hreach|].
  rewrite Hhist. vm_compute in Hjob. injection Hjob as <-.
  vm_compute. reflexivity.
Defined.

(** C6 on the sample run: a report of 250 per cent is recorded as 100. *)
Lemma progress_pct_in_range_witness :
  exists job,
    JOBS run_4 !! ("job-1" : str) = Some job
    /\ processing_pct job = 100
    /\ 0 <= processing_pct job <= 100.
Proof.
  eexists. split; [vm_compute; reflexivity|]. split; [reflexivity|].
  apply (progress_pct_in_range sample_run run_4 "job-1").
  - exact sample_run_is_run.
  - right; left; reflexivity.
  - vm_compute; reflexivity.
Defined.

(** C5 on the sample run: there is no job "job-2". *)
Lemma unknown_job_not_found_witness :
  progress run_5 "job-2" = jsonify (error_body "Invalid job id") 404
  /\ result sample_host run_5 "job-2" = jsonify (error_body "Invalid job id") 404.
Proof.
  apply (unknown_job_not_found sample_host run_5 "job-2").
  vm_compute; reflexivity.
Defined.

(** C8 on a host where the upload never reaches the disk. *)
Lemma missing_file_not_found_witness :
  (run_process_doc sample_host empty_world "/tmp/up/missing.docx" None true).2
  = inl (FileNotFoundError "File not found: /tmp/up/missing.docx")
  /\ (convert sample_host lost_upload empty_world sample_request "/tmp/up" "u").2
     = flash_and_redirect "Uploaded file could not be found." "error" "index".
Proof.
  destruct (missing_file_not_found sample_host lost_upload) as [Hdoc Hconvert].
  split.
  - rewrite (Hdoc empty_world "/tmp/up/missing.docx" None true); reflexivity.
  - rewrite (Hconvert empty_world sample_request
               {| FileStorage.filename := "paper (1).docx";
                  FileStorage.stream := sample_document |} "/tmp/up" "u");
      solve [reflexivity | discriminate].
Defined.

(** A whole job through the program's own functions: the upload is queued
    by [start], and one turn of the worker leaves it done. *)
Example start_then_worker_turn :
  let stored (w : World) (path : str) (f : FileStorage.t) :=
    store path (FileStorage.stream f) w in
  let '(s, w, response) :=
    start sample_host stored initial empty_world sample_request "/tmp/up" "u" "job-1" in
  response = jsonify (job_body "job-1" "paper (1).docx") 200
  /\ status_of "job-1" s = Some Status.queued
  /\ (status_of "job-1" <$> (fst <$> worker_turn sample_host s w))
     = Some (Some Status.done)
  /\ (fun s' => progress s' "job-1") <$> (fst <$> worker_turn sample_host s w)
     = Some (jsonify (progress_body Status.done 100 "paper (1).docx" None) 200).
Proof. vm_compute. repeat split; reflexivity. Qed.

End AppFacts.

Module QuestionPaperFacts.

Import Py PyFacts QuestionPaper QuestionPaperSpec QuestionSamples.

(** *** Decimal numerals *)

Lemma no_dot_uint (d : Decimal.uint) :
  ~ In "."%char (list_ascii_of_string (NilEmpty.string_of_uint d)).
Proof.
  induction d; simpl; intros H; try contradiction;
    destruct H as [H|H]; try discriminate; contradiction.
Qed.

Lemma no_dot_decimal (n : Z) : ~ In "."%char (decimal n).
Proof.
  unfold decimal, NilZero.string_of_int, NilZero.string_of_uint.
  destruct (Z.to_int n) as [d|d]; destruct d; simpl; intros H;
    repeat (destruct H as [H|H]; [discriminate|]);
    try contradiction; revert H; apply (no_dot_uint _).
Qed.

Lemma to_int_proper (n : Z) :
  Z.to_int n <> Decimal.Pos Decimal.Nil /\ Z.to_int n <> Decimal.Neg Decimal.Nil.
Proof.
  destruct n as [|p|p]; simpl; split; try discriminate;
    intros [= H]; now apply DecimalPos.Unsigned.to_uint_nonnil in H.
Qed.

Lemma decimal_inj (a b : Z) : decimal a = decimal b -> a = b.
Proof.
  unfold decimal. intros H.
  assert (Hs : NilZero.string_of_int (Z.to_int a) = NilZero.string_of_int (Z.to_int b)).
  { rewrite <- (string_of_list_ascii_of_string (NilZero.string_of_int (Z.to_int a))),
      <- (string_of_list_ascii_of_string (NilZero.string_of_int (Z.to_int b))).
    now rewrite H. }
  apply (f_equal NilZero.int_of_string) in Hs.
  destruct (to_int_proper a) as [Ha1 Ha2]. destruct (to_int_proper b) as [Hb1 Hb2].
  rewrite !NilZero.isi in Hs by assumption.
  injection Hs as Hs. apply (f_equal Z.of_int) in Hs.
  now rewrite !DecimalZ.of_to in Hs.
Qed.

Lemma same_up_to_dot (a b r1 r2 : str) :
  ~ In "."%char a -> ~ In "."%char b ->
  a ++ "."%char :: r1 = b ++ "."%char :: r2 -> a = b.
Proof.
  revert b. induction a as [|x a IH]; intros [|y b] Ha Hb E; simpl in *.
  - reflexivity.
  - injection E as <- _. tauto.
  - injection E as -> _. tauto.
  - injection E as -> E. f_equal. apply (IH b); tauto.
Qed.

(** A text cannot start with the prefixes of two numbers. *)
Lemma starts_one_number (n k : Z) (t : str) :
  starts n t = true -> starts k t = true -> n = k.
Proof.
  unfold starts. rewrite !startswith_spec. intros [r1 E1] [r2 E2].
  apply decimal_inj. rewrite E1 in E2.
  rewrite <- !app_assoc in E2. simpl in E2.
  eapply same_up_to_dot; [apply no_dot_decimal | apply no_dot_decimal | exact E2].
Qed.

Lemma starts_not_next (n : Z) (t : str) :
  starts n t = true -> starts (n + 1) t = false.
Proof.
  intros H. destruct (starts (n + 1) t) eqn:E; [|reflexivity].
  pose proof (starts_one_number n (n + 1) t H E). lia.
Qed.

(** *** The second loop *)

Lemma capture_capturing (n : Z) (content : list (Kind * str)) (acc : list str) :
  capture n content true acc = acc ++ until_next n (content_texts content).
Proof.
  revert acc. induction content as [|[k text] content IH]; intros acc.
  - simpl. now rewrite app_nil_r.
  - unfold content_texts in *. cbn [capture map List.filter snd].
    destruct (nonempty (strip text)) eqn:Hne; cbn [negb]; [|apply IH].
    cbn [until_next]. fold (starts n (strip text)).
    fold (starts (n + 1) (strip text)).
    destruct (starts n (strip text)) eqn:Hs.
    + rewrite (starts_not_next n _ Hs), IH, <- app_assoc. reflexivity.
    + cbn [andb]. destruct (starts (n + 1) (strip text)).
      * now rewrite app_nil_r.
      * rewrite IH, <- app_assoc. reflexivity.
Qed.

Lemma capture_block (n : Z) (content : list (Kind * str)) :
  capture n content false [] = block n (content_texts content).
Proof.
  induction content as [|[k text] content IH]; [reflexivity|].
  unfold content_texts in *. cbn [capture map List.filter snd].
  destruct (nonempty (strip text)) eqn:Hne; cbn [negb]; [|apply IH].
  cbn [block]. fold (starts n (strip text)).
  destruct (starts n (strip text)) eqn:Hs.
  - rewrite capture_capturing. reflexivity.
  - cbn [andb]. apply IH.
Qed.

(** *** The first loop *)

Lemma count_p_entries (l : list Element) :
  length (List.filter is_p (omap entry_of l)) = length (paragraphs l).
Proof.
  unfold paragraphs. induction l as [|[t|rows|] l IH]; simpl; auto.
Qed.

Lemma count_tbl_entries (l : list Element) :
  length (List.filter is_tbl (omap entry_of l)) = length (tables l).
Proof.
  unfold tables. induction l as [|[t|rows|] l IH]; simpl; auto.
Qed.

Lemma paragraphs_middle (pre rest : list Element) (t : str) :
  paragraphs (pre ++ w_p t :: rest) !! length (paragraphs pre) = Some t.
Proof.
  unfold paragraphs. rewrite omap_app. now apply list_lookup_middle.
Qed.

Lemma tables_middle (pre rest : list Element) (rows : list (list str)) :
  tables (pre ++ w_tbl rows :: rest) !! length (tables pre) = Some rows.
Proof.
  unfold tables. rewrite omap_app. now apply list_lookup_middle.
Qed.

Lemma combine_entries (pre rest : list Element) :
  no_empty_table (pre ++ rest) ->
  combine (pre ++ rest) rest (omap entry_of pre) = Some (omap entry_of (pre ++ rest)).
Proof.
  revert pre. induction rest as [|e rest IH]; intros pre Hok.
  - simpl. now rewrite app_nil_r.
  - assert (E : pre ++ e :: rest = (pre ++ [e]) ++ rest)
      by (now rewrite <- app_assoc).
    specialize (IH (pre ++ [e])). rewrite <- E in IH. specialize (IH Hok).
    rewrite omap_app in IH.
    destruct e as [t|rows|]; cbn [combine].
    + rewrite count_p_entries, paragraphs_middle. exact IH.
    + rewrite count_tbl_entries, tables_middle.
      unfold no_empty_table in Hok. apply List.Forall_app in Hok as [_ Hok].
      inversion Hok as [|? ? Hrows _]; subst. rewrite Hrows. exact IH.
    + simpl in IH. rewrite app_nil_r in IH. exact IH.
Qed.

Lemma content_texts_entries (doc : Document) :
  content_texts (omap entry_of doc) = texts doc.
Proof.
  unfold content_texts, texts. f_equal.
  induction doc as [|[t|rows|] doc IH]; simpl;
    first [reflexivity | exact IH | f_equal; exact IH].
Qed.

(** On a document without empty tables, [extract_question] returns the
    block of the claim: from the first text that starts with the number and
    a dot, up to the first later one that starts with the next number and a
    dot; None when there is no such text. *)
Lemma extract_question_without_empty_tables (doc : Document) (n : Z) :
  no_empty_table doc ->
  extract_question (Some doc) n = extract_question_spec doc n.
Proof.
  intros Hok. unfold extract_question, extract_question_spec.
  pose proof (combine_entries [] doc Hok) as Hc. simpl in Hc. rewrite Hc.
  now rewrite capture_block, content_texts_entries.
Qed.

(** C9 fails on the code. The block of question 1 holds the text of the
    second table, and [extract_question] drops it: the empty table before it
    is not counted, so the second table is looked up at the position of the
    first and found empty too. *)
Theorem extract_question_loses_table_after_empty_table :
  extract_question (Some table_after_empty_table) 1
    = Some ("1. Which row is right?" : str)
  /\ extract_question_spec table_after_empty_table 1
    = Some ("1. Which row is right?" ++ NL ++ "a b" ++ NL ++ "c").
Proof. split; reflexivity. Qed.

Example docx_files_example :
  length docx_files = 100%nat
  /\ hd [] docx_files = "Q1.docx" /\ List.last docx_files [] = "Q100.docx".
Proof. repeat split; reflexivity. Qed.

Example extract_question_example :
  extract_question
    (Some [w_p "intro"; w_p " 1. First"; w_tbl [["a" : str; "b" : str]];
           w_p []; w_p "more"; w_p "2. Second"; w_p "after"]) 1
  = Some ("1. First" ++ NL ++ "a b" ++ NL ++ "more")
  /\ extract_question (Some [w_p "intro"; w_p "2. Second"]) 1 = None
  /\ extract_question None 1 = None.
Proof. repeat split; reflexivity. Qed.

End QuestionPaperFacts.

(* ===================================================================== *)
(** * Further properties of the code *)
(* ===================================================================== *)

Module PyMore.

Import Py PyFacts.

Lemma rfind_from_absent (c : ascii) (s : str) (i found : Z) :
  ~ In c s -> rfind_from c s i found = found.
Proof.
  revert i found. induction s as [|x s IH]; intros i found Hc; simpl; [reflexivity|].
  destruct (eqc x c) eqn:E.
  - apply eqc_true in E. subst. exfalso. apply Hc. now left.
  - apply IH. intros H. apply Hc. now right.
Qed.

Lemma rfind_from_last (c : ascii) (pre post : str) (i found : Z) :
  ~ In c post ->
  rfind_from c (pre ++ c :: post) i found = i + Z.of_nat (length pre).
Proof.
  intros Hc. revert i found. induction pre as [|x pre IH]; intros i found; simpl.
  - rewrite eqc_refl, rfind_from_absent by exact Hc. lia.
  - rewrite IH. lia.
Qed.

Lemma last_occurrence (c : ascii) (s : str) :
  In c s -> exists pre post, s = pre ++ c :: post /\ ~ In c post.
Proof.
  induction s as [|x s IH]; intros Hin; [destruct Hin|].
  destruct (in_dec ascii_dec c s) as [Hs|Hs].
  - destruct (IH Hs) as (pre & post & -> & Hp). now exists (x :: pre), post.
  - destruct Hin as [->|Hin]; [|contradiction]. now exists [], s.
Qed.

Lemma rfind_absent (s : str) (c : ascii) : ~ In c s -> rfind s c = -1.
Proof. apply rfind_from_absent. Qed.

Lemma rfind_last (pre post : str) (c : ascii) :
  ~ In c post -> rfind (pre ++ c :: post) c = Z.of_nat (length pre).
Proof. intros H. unfold rfind. now rewrite rfind_from_last. Qed.

Lemma char_in_In (s : str) (c : ascii) : char_in s c = true <-> In c s.
Proof.
  unfold char_in. rewrite existsb_exists. split.
  - intros [x [Hx E]]. apply eqc_true in E. now subst.
  - intros H. exists c. split; [exact H | apply eqc_refl].
Qed.

Lemma from_app (pre post : str) : from (pre ++ post) (Z.of_nat (length pre)) = post.
Proof.
  unfold from. rewrite Nat2Z.id. apply skipn_app_length || apply drop_app_length.
Qed.

Lemma lower_char_dot (c : ascii) : lower_char c = "."%char -> c = "."%char.
Proof.
  destruct c as [[|] [|] [|] [|] [|] [|] [|] [|]]; vm_compute; intros H;
    first [reflexivity | discriminate].
Qed.

Lemma lower_no_dot (s : str) : ~ In "."%char (lower s) -> ~ In "."%char s.
Proof.
  unfold lower. intros H Hin. apply H. apply in_map_iff. exists "."%char.
  split; [reflexivity | exact Hin].
Qed.

End PyMore.

Module SanitizeMore.

Import Py PyFacts PyMore Converter App AppSpec AppFacts.

Lemma after_last_dot_app (stem ext : str) :
  ~ In "."%char ext -> after_last_dot (stem ++ "."%char :: ext) = ext.
Proof.
  intros H. unfold after_last_dot. rewrite rfind_last by exact H.
  replace (Z.of_nat (length stem) + 1) with (Z.of_nat (length (stem ++ ["."%char])))
    by (rewrite length_app; simpl; lia).
  replace (stem ++ "."%char :: ext) with ((stem ++ ["."%char]) ++ ext)
    by (now rewrite <- app_assoc).
  apply from_app.
Qed.

Lemma allowed_file_spec (filename : str) :
  allowed_file filename = true <->
  exists stem ext, filename = stem ++ "." ++ ext /\ lower ext = "docx".
Proof.
  unfold allowed_file, ALLOWED_EXTENSIONS.
  rewrite andb_true_iff, char_in_In, bool_decide_eq_true, list_elem_of_singleton.
  split.
  - intros [Hdot Hext].
    destruct (last_occurrence _ _ Hdot) as (stem & ext & -> & Hlast).
    rewrite after_last_dot_app in Hext by exact Hlast. now exists stem, ext.
  - intros (stem & ext & -> & Hext).
    assert (Hlast : ~ In "."%char ext).
    { apply lower_no_dot. rewrite Hext. simpl. intuition discriminate. }
    split.
    + apply in_or_app. right. now left.
    + simpl. now rewrite after_last_dot_app.
Qed.

(** X1. [allowed_file] accepts exactly the names that have a dot and whose
    part after the last dot is "docx" in some letter case. *)
Theorem allowed_file_iff (filename : str) :
  allowed_file filename = true <->
  exists stem ext, filename = stem ++ "." ++ ext /\ lower ext = "docx".
Proof. apply allowed_file_spec. Qed.

Lemma lower_docx_inv (r : str) :
  endswith (lower r) ".docx" = true ->
  exists stem ext, r = stem ++ "." ++ ext /\ lower ext = "docx".
Proof.
  intros H. apply endswith_spec in H as [t Ht].
  unfold lower in Ht. apply map_eq_app in Ht as (stem & tail & -> & _ & Htail).
  destruct tail as [|c ext]; [discriminate|].
  simpl in Htail. injection Htail as Hc Hext.
  apply lower_char_dot in Hc. subst c. now exists stem, ext.
Qed.

Section Sanitized.

Variable basename : str -> str.

(** X2. Whatever the name, the sanitised name is one [allowed_file]
    accepts. *)
Theorem sanitized_name_is_allowed (name : str) :
  allowed_file (sanitize_filename_keep_parens basename name) = true.
Proof.
  apply allowed_file_spec. apply lower_docx_inv.
  apply sanitize_ends_docx_any_case.
Qed.

Lemma sub_class_id (s : str) : Forall allowed s -> sub_class forbidden s = s.
Proof.
  unfold sub_class. induction 1 as [|a s Ha Hs IH]; simpl; [reflexivity|].
  unfold allowed in Ha. rewrite Ha. simpl. now rewrite IH.
Qed.

Lemma rstrip_by_id (p : ascii -> bool) (s : str) (c : ascii) :
  p c = false -> rstrip_by p (s ++ [c]) = s ++ [c].
Proof.
  intros Hc. unfold rstrip_by. rewrite rev_app_distr. simpl. rewrite Hc.
  simpl. now rewrite rev_involutive.
Qed.

Lemma lower_char_x (c : ascii) :
  lower_char c = "x"%char -> char_in " ." c = false.
Proof.
  destruct c as [[|] [|] [|] [|] [|] [|] [|] [|]]; vm_compute; intros H;
    first [reflexivity | discriminate].
Qed.

Lemma sanitized_all_allowed (name : str) :
  Forall allowed (sanitize_filename_keep_parens basename name).
Proof.
  rewrite sanitize_unfold. cbv zeta.
  assert (Hb : Forall allowed
            match trimmed basename name with [] => "document.docx" : str | b => b end).
  { pose proof (trimmed_allowed basename name) as H.
    destruct (trimmed basename name); [apply document_docx_allowed | exact H]. }
  destruct (negb _); [|exact Hb].
  apply List.Forall_app. split; [now apply root_allowed | apply docx_allowed].
Qed.

(** X3. Sanitising is idempotent: a sanitised name is returned as it is
    when it is sanitised again, provided [basename] leaves a name without
    forbidden characters (so without separators) alone. *)
Theorem sanitize_idempotent (name : str) :
  (forall s, Forall allowed s -> basename s = s) ->
  sanitize_filename_keep_parens basename
    (sanitize_filename_keep_parens basename name)
  = sanitize_filename_keep_parens basename name.
Proof.
  intros Hbase.
  pose proof (sanitized_all_allowed name) as Hall.
  pose proof (sanitize_ends_docx_any_case basename name) as Hends.
  set (r := sanitize_filename_keep_parens basename name) in *.
  assert (Htrim : trimmed basename r = r).
  { unfold trimmed, kept. rewrite (Hbase r Hall), (sub_class_id r Hall).
    apply endswith_spec in Hends as [t Ht].
    unfold lower in Ht. apply map_eq_app in Ht as (a & b & Hr & _ & Hb).
    destruct (exists_last (l := b)) as (b' & c & ->).
    { intros ->. discriminate. }
    rewrite map_app in Hb. simpl in Hb.
    change (map lower_char b' ++ [lower_char c] = (".doc" : str) ++ ["x"%char]) in Hb.
    apply app_inj_tail in Hb as [_ Hc].
    rewrite Hr, app_assoc. unfold rstrip. apply rstrip_by_id.
    now apply lower_char_x. }
  destruct (sanitize_cases basename r) as (_ & Hkeep & _).
  rewrite Htrim in Hkeep. apply Hkeep; [|exact Hends].
  intros E. rewrite E in Hends. discriminate.
Qed.

End Sanitized.

Lemma posix_basename_id (s : str) : Forall allowed s -> posix_basename s = s.
Proof.
  intros H. unfold posix_basename. rewrite rfind_absent; [reflexivity|].
  intros Hin. rewrite List.Forall_forall in H. specialize (H _ Hin). discriminate.
Qed.

Lemma sanitize_idempotent_witness :
  sanitize_filename_keep_parens posix_basename
    (sanitize_filename_keep_parens posix_basename "dir/my<file> (2).txt ")
  = sanitize_filename_keep_parens posix_basename "dir/my<file> (2).txt ".
Proof. apply (sanitize_idempotent posix_basename). exact posix_basename_id. Defined.

End SanitizeMore.

Module RespaceMore.

Import Py PyFacts PyMore Re ReFacts Converter ConverterSpec.










End RespaceMore.

Module ConverterMore.

Import Py PyFacts Converter ConverterSpec ConverterFacts.

Section Frame.

Variable ConvertNumbersToText : Paragraph -> option Paragraph.
Variables LeftIndent_raises FirstLineIndent_raises : Paragraph -> bool.
Variable percent : nat -> nat -> Z.

Lemma fold_alter_length (f : Paragraph -> Paragraph) (l : list nat) (d : Document) :
  length (fold_left (fun d i => alter f i d) l d) = length d.
Proof.
  revert d. induction l as [|i l IH]; intros d; simpl; [reflexivity|].
  now rewrite IH, length_alter.
Qed.

Lemma targets_count_from (doc : Document) (k : nat) (whole : Document) :
  (forall i, whole !! (k + i)%nat = doc !! i) ->
  length (List.filter (fun i => match whole !! i with
                                | Some p => is_question_paragraph p
                                | None => false
                                end) (seq k (length doc)))
  = length (List.filter is_question_paragraph doc).
Proof.
  revert k. induction doc as [|p doc IH]; intros k Hk; simpl; [reflexivity|].
  pose proof (Hk 0%nat) as H0. rewrite Nat.add_0_r in H0. simpl in H0. rewrite H0.
  assert (Hrest : length (List.filter (fun i => match whole !! i with
                                | Some p => is_question_paragraph p
                                | None => false
                                end) (seq (S k) (length doc)))
                  = length (List.filter is_question_paragraph doc)).
  { apply IH. intros i. replace (S k + i)%nat with (k + S i)%nat by lia.
    apply (Hk (S i)). }
  destruct (is_question_paragraph p); simpl; now rewrite Hrest.
Qed.

Lemma targets_count (doc : Document) :
  length (targets doc) = length (List.filter is_question_paragraph doc).
Proof. unfold targets. now apply targets_count_from. Qed.

Lemma progress_calls_length (total : nat) :
  length (progress_calls percent total) = total.
Proof.
  unfold progress_calls. destruct total as [|n]; [reflexivity|].
  change (0 <? S n)%nat with true. cbv iota.
  now rewrite List.length_map, List.length_seq.
Qed.

(** X5. [convert_questions_to_text] keeps the number of paragraphs, writes
    to no paragraph that the heuristic does not match (each is as it was),
    and has one progress report per matched paragraph to make. *)
Theorem convert_questions_frame (doc : Document) :
  let after :=
    convert_questions_to_text ConvertNumbersToText LeftIndent_raises
      FirstLineIndent_raises percent doc in
  length after.1 = length doc
  /\ (forall i p, doc !! i = Some p -> is_question_paragraph p = false ->
        after.1 !! i = Some p)
  /\ length after.2 = length (List.filter is_question_paragraph doc).
Proof.
  cbv zeta. split; [|split].
  - unfold convert_questions_to_text. simpl. apply fold_alter_length.
  - intros i p Hp Hq.
    rewrite (convert_questions_to_text_lookup _ _ _ _ doc i p Hp). now rewrite Hq.
  - unfold convert_questions_to_text. cbn [snd].
    rewrite <- targets_count. apply progress_calls_length.
Qed.

End Frame.

End ConverterMore.

Module JobsMore.

Import Py PyFacts Converter App AppSpec JobsSpec AppFacts Samples.

Lemma scheduled_initial : scheduled initial.
Proof.
  split.
  - intros job_id H. unfold status_of, initial in H. cbn [JOBS] in H.
    rewrite lookup_empty in H. discriminate.
  - intros job_id H. unfold status_of, initial in H. cbn [JOBS] in H.
    rewrite lookup_empty in H. discriminate.
  - intros job_id job H. unfold initial in H. cbn [JOBS] in H.
    rewrite lookup_empty in H. discriminate.
Qed.

Lemma status_of_Some (job_id : str) (s : System) (st : Status.t) :
  status_of job_id s = Some st <->
  exists job, JOBS s !! job_id = Some job /\ status job = st.
Proof.
  unfold status_of. destruct (JOBS s !! job_id) as [job|]; simpl; split.
  - intros [= <-]. eauto.
  - intros (j & [= <-] & <-). reflexivity.
  - discriminate.
  - intros (j & H & _). discriminate.
Qed.

Lemma scheduled_step (s s' : System) :
  invariant s -> scheduled s -> step s s' -> scheduled s'.
Proof.
  intros [Hnd Hq Hp Hd Ha Hpct] [Sp Sq Sf] Hstep.
  destruct Hstep as [s job_id name input output Hnew
                    | s job_id q Hw Hqueue
                    | s job_id J Hw Hmark
                    | s job_id Hw Hmark
                    | s job_id pct Hw
                    | s job_id final J Hw Hmark
                    | s job_id e J Hw Hmark].
  - (* enqueue *)
    split; unfold enqueue.
    + intros other. rewrite status_of_insert. case_decide; [discriminate|].
      apply Sp.
    + intros other. rewrite status_of_insert. simpl. case_decide.
      * subst. intros _. left. apply elem_of_app. right. now left.
      * intros H'. destruct (Sq other H') as [Hin|Hpk]; [|now right].
        left. apply elem_of_app. now left.
    + intros other job. simpl. rewrite lookup_insert. case_decide.
      * intros [= <-]. repeat split.
      * apply Sf.
  - (* get *)
    assert (Hst : status_of job_id s = Some Status.queued).
    { apply Hq. rewrite Hqueue. now left. }
    pose proof Hst as Hst'. apply status_of_Some in Hst' as (job & Hj & _).
    split; simpl.
    + intros other H'. change (status_of other s = Some Status.processing) in H'.
      apply Sp in H'. congruence.
    + intros other H'. change (status_of other s = Some Status.queued) in H'.
      rewrite Hj. destruct (Sq other H') as [Hin|Hpk]; [|congruence].
      rewrite Hqueue in Hin. apply elem_of_cons in Hin as [->|Hin]; auto.
    + exact Sf.
  - (* processing *)
    apply setitem_Some in Hmark as [job [Hj ->]].
    destruct (Hp job_id Hw) as [Hst Hnin].
    assert (Hjq : status job = Status.queued).
    { unfold status_of in Hst. rewrite Hj in Hst. now injection Hst. }
    split; unfold with_jobs.
    + intros other. rewrite status_of_insert. case_decide; [now subst|].
      intros H'. apply Sp in H'. congruence.
    + intros other. rewrite status_of_insert. simpl. case_decide; [discriminate|].
      intros H'. destruct (Sq other H') as [Hin|Hpk]; [now left | congruence].
    + intros other job'. simpl. rewrite lookup_insert. case_decide; [|apply Sf].
      intros [= <-]. specialize (Sf job_id job Hj). unfold consistent in *.
      rewrite Hjq in Sf. simpl. tauto.
  - (* key error: cannot happen *)
    destruct (Hp job_id Hw) as [Hst _]. unfold mark_processing, setitem in Hmark.
    unfold status_of in Hst. destruct (JOBS s !! job_id); discriminate.
  - (* progress *)
    pose proof (Hd job_id Hw) as Hst.
    apply status_of_Some in Hst as (job & Hj & Hjs).
    assert (Hon : on_progress job_id pct (JOBS s)
                  = <[job_id := set_processing_pct (Z.max 0 (Z.min 100 pct)) job]> (JOBS s)).
    { unfold on_progress. now rewrite Hj. }
    rewrite Hon. split; unfold with_jobs.
    + intros other. rewrite status_of_insert. case_decide; [now subst|].
      intros H'. apply Sp in H'. congruence.
    + intros other. rewrite status_of_insert. simpl. case_decide.
      * rewrite Hjs. discriminate.
      * intros H'. destruct (Sq other H') as [Hin|Hpk]; [now left | congruence].
    + intros other job'. simpl. rewrite lookup_insert. case_decide; [|apply Sf].
      intros [= <-]. specialize (Sf job_id job Hj). unfold consistent in *.
      simpl. rewrite Hjs in *. exact Sf.
  - (* done *)
    apply setitem_Some in Hmark as [job [Hj ->]].
    pose proof (Hd job_id Hw) as Hst.
    apply status_of_Some in Hst as (job0 & Hj0 & Hjs).
    rewrite Hj in Hj0. injection Hj0 as <-.
    split; unfold with_jobs.
    + intros other. rewrite status_of_insert. case_decide; [discriminate|].
      intros H'. apply Sp in H'. congruence.
    + intros other. rewrite status_of_insert. simpl. case_decide; [discriminate|].
      intros H'. destruct (Sq other H') as [Hin|Hpk]; [now left | congruence].
    + intros other job'. simpl. rewrite lookup_insert. case_decide; [|apply Sf].
      intros [= <-]. specialize (Sf job_id job Hj). unfold consistent in *.
      rewrite Hjs in Sf. simpl. destruct Sf as [_ He]. eauto.
  - (* error *)
    apply setitem_Some in Hmark as [job [Hj ->]].
    pose proof (Hd job_id Hw) as Hst.
    apply status_of_Some in Hst as (job0 & Hj0 & Hjs).
    rewrite Hj in Hj0. injection Hj0 as <-.
    split; unfold with_jobs.
    + intros other. rewrite status_of_insert. case_decide; [discriminate|].
      intros H'. apply Sp in H'. congruence.
    + intros other. rewrite status_of_insert. simpl. case_decide; [discriminate|].
      intros H'. destruct (Sq other H') as [Hin|Hpk]; [now left | congruence].
    + intros other job'. simpl. rewrite lookup_insert. case_decide; [|apply Sf].
      intros [= <-]. specialize (Sf job_id job Hj). unfold consistent in *.
      rewrite Hjs in Sf. simpl. destruct Sf as [Hf _]. eauto.
Qed.

Lemma run_scheduled (states : list System) :
  run states -> Forall scheduled states.
Proof.
  intros Hrun. pose proof (run_invariant states Hrun) as Hinv.
  induction Hrun as [|s s' past Hrun IH Hstep].
  - constructor; [apply scheduled_initial | constructor].
  - inversion Hinv as [|? ? _ Hinv']; subst. specialize (IH Hinv').
    constructor; [|exact IH]. inversion IH; subst. inversion Hinv'; subst.
    eapply scheduled_step; eassumption.
Qed.

(** X6. In every state of every run at most one job is processing: two job
    ids whose status is processing are the same id. *)
Theorem one_job_processing (states : list System) (s : System) (a b : str) :
  run states -> In s states ->
  status_of a s = Some Status.processing ->
  status_of b s = Some Status.processing ->
  a = b.
Proof.
  intros Hrun Hin Ha Hb. apply run_scheduled in Hrun.
  rewrite List.Forall_forall in Hrun. destruct (Hrun s Hin) as [Sp _ _].
  apply Sp in Ha. apply Sp in Hb. congruence.
Qed.


(** X8. In every state of every run the fields of a job fit its status: a
    queued job has progress 0, no result and no error; a processing job has
    no result and no error; a done job has progress 100, a result path and no
    error; a failed job has an error message and no result path. *)
Theorem job_fields_fit_status (states : list System) (s : System)
    (job_id : str) (job : Job) :
  run states -> In s states -> JOBS s !! job_id = Some job -> consistent job.
Proof.
  intros Hrun Hin Hj. apply run_scheduled in Hrun.
  rewrite List.Forall_forall in Hrun. destruct (Hrun s Hin) as [_ _ Sf].
  now apply (Sf job_id).
Qed.

Lemma one_job_processing_witness :
  status_of "job-1" run_3 = Some Status.processing
  /\ forall b, status_of b run_3 = Some Status.processing -> ("job-1" : str) = b.
Proof.
  split; [vm_compute; reflexivity|]. intros b Hb.
  apply (one_job_processing sample_run run_3 "job-1" b).
  - exact sample_run_is_run.
  - right; right; left; reflexivity.
  - vm_compute; reflexivity.
  - exact Hb.
Defined.


Lemma job_fields_fit_status_witness :
  exists job, JOBS run_5 !! ("job-1" : str) = Some job
              /\ status job = Status.done /\ consistent job.
Proof.
  eexists. split; [vm_compute; reflexivity|]. split; [reflexivity|].
  apply (job_fields_fit_status sample_run run_5 "job-1").
  - exact sample_run_is_run.
  - left; reflexivity.
  - vm_compute; reflexivity.
Defined.

End JobsMore.

Module HandlersMore.

Import Py PyFacts Converter App AppSpec JobsSpec AppFacts Samples UploadSamples
  SanitizeMore.

Section Handlers.

Variable host : Host.
Variable save : World -> str -> FileStorage.t -> World.

Lemma last_default (x : Z) (l : list Z) (d d' : Z) :
  List.last (x :: l) d = List.last (x :: l) d'.
Proof.
  revert x. induction l as [|y l IH]; intros x; [reflexivity|].
  change (List.last (y :: l) d = List.last (y :: l) d'). apply IH.
Qed.

Lemma on_progress_fold (job_id : str) (calls : list Z) (J : gmap str Job) (job : Job) :
  fold_left (fun J pct => on_progress job_id pct J) calls (<[job_id := job]> J)
  = <[job_id := set_processing_pct (last_pct (processing_pct job) calls) job]> J.
Proof.
  revert job. induction calls as [|pct calls IH]; intros job.
  - simpl. unfold last_pct. simpl. now destruct job.
  - cbn [fold_left]. unfold on_progress at 2. rewrite lookup_insert_eq.
    rewrite insert_insert_eq, IH. f_equal. unfold last_pct. cbn [map].
    change (Z.max 0 (Z.min 100 pct)) with (clamp pct).
    destruct calls as [|c calls]; [reflexivity|].
    cbn [map processing_pct set_processing_pct].
    rewrite (last_default (clamp c) (map clamp calls) _ (processing_pct job)).
    reflexivity.
Qed.

Lemma run_job_result (J : gmap str Job) (w : World) (job_id input output : str)
    (job : Job) :
  J !! job_id = Some job ->
  let '(w', calls, result) := run_process_doc host w input (Some output) true in
  _run_job host J w job_id input output
  = Some (<[job_id := finished job calls result]> J, w').
Proof.
  intros Hj. unfold _run_job, mark_processing, setitem. rewrite Hj.
  destruct (run_process_doc host w input (Some output) true) as [[w' calls] result].
  rewrite on_progress_fold.
  destruct result as [e|final]; unfold mark_error, mark_done, setitem;
    rewrite lookup_insert_eq, insert_insert_eq; reflexivity.
Qed.


(** X10. A turn of the worker always completes. On an empty queue nothing
    changes. Otherwise the first id leaves the queue; if it names a job,
    that job ends done or failed and every other job is as it was, and an id
    that names no job is skipped. *)
Theorem worker_turn_completes (s : System) (w : World) :
  exists s' w',
    worker_turn host s w = Some (s', w')
    /\ match JOB_QUEUE s with
       | [] => s' = s /\ w' = w
       | job_id :: q =>
           JOB_QUEUE s' = q
           /\ (forall other, other <> job_id -> JOBS s' !! other = JOBS s !! other)
           /\ match JOBS s !! job_id with
              | None => JOBS s' = JOBS s /\ w' = w
              | Some job =>
                  exists job',
                    JOBS s' !! job_id = Some job'
                    /\ (status job' = Status.done \/ status job' = Status.error)
                    /\ filename job' = filename job
              end
       end.
Proof.
  unfold worker_turn. destruct (JOB_QUEUE s) as [|job_id q]; [eauto|].
  destruct (JOBS s !! job_id) as [job|] eqn:Hj.
  - pose proof (run_job_result (JOBS s) w job_id (input_path job) (output_path job)
                  job Hj) as Hrun.
    destruct (run_process_doc host w (input_path job) (Some (output_path job)) true)
      as [[w' calls] result].
    rewrite Hrun. eexists _, _. split; [reflexivity|]. cbn [JOB_QUEUE JOBS].
    split; [reflexivity|]. split.
    + intros other Hne. now apply lookup_insert_ne.
    + exists (finished job calls result). rewrite lookup_insert_eq.
      split; [reflexivity|]. destruct result; simpl; auto.
  - eexists _, _. split; [reflexivity|]. cbn [JOB_QUEUE JOBS]. auto.
Qed.





End Handlers.




End HandlersMore.

Module QuestionPaperMore.

Import Py PyFacts PyMore QuestionPaper QuestionPaperSpec QuestionSamples
  QuestionPaperFacts QuestionPaperAssembly AssemblySpec AssemblySamples.

Lemma join_cons_prefix (sep t : str) (rest : list str) :
  exists tail, join sep (t :: rest) = t ++ tail.
Proof.
  destruct rest as [|u rest]; simpl.
  - exists []. now rewrite app_nil_r.
  - eauto.
Qed.

Lemma block_head (n : Z) (l : list str) (t : str) (rest : list str) :
  block n l = t :: rest -> starts n t = true.
Proof.
  induction l as [|x l IH]; simpl; [discriminate|].
  destruct (starts n x) eqn:E; [|exact IH]. now intros [= <- _].
Qed.

Lemma extract_question_prefix (opened : option Document) (n : Z) (q : str) :
  extract_question opened n = Some q ->
  exists tail, q = decimal n ++ "." ++ tail.
Proof.
  unfold extract_question. destruct opened as [doc|]; [|discriminate].
  destruct (combine doc doc []) as [content|]; [|discriminate].
  rewrite capture_block.
  destruct (block n (content_texts content)) as [|t rest] eqn:Hb; [discriminate|].
  intros [= <-]. apply block_head in Hb. unfold starts in Hb.
  apply startswith_spec in Hb as [u Hu].
  change (exists tail, join NL (t :: rest) = decimal n ++ "." ++ tail).
  destruct (join_cons_prefix NL t rest) as [tail ->].
  exists (u ++ tail). rewrite Hu. now rewrite <- !app_assoc.
Qed.

Lemma dropwhile_head (p : ascii -> bool) (s : str) (c : ascii) (r : str) :
  dropwhile p s = c :: r -> p c = false.
Proof.
  induction s as [|a s IH]; simpl; [discriminate|].
  destruct (p a) eqn:E; [exact IH|]. now intros [= <- _].
Qed.

Lemma dropwhile_app_last (p : ascii -> bool) (l : str) (c : ascii) :
  p c = false -> exists x, dropwhile p (l ++ [c]) = x ++ [c].
Proof.
  intros Hc. induction l as [|a l [x IH]]; simpl.
  - rewrite Hc. now exists [].
  - destruct (p a); [eauto|]. now exists (a :: l).
Qed.

Lemma strip_head (s : str) (c : ascii) (r : str) :
  strip s = c :: r -> isspace c = false.
Proof.
  unfold strip, lstrip_by. intros H.
  destruct (AppFacts.rstrip_by_prefix isspace (dropwhile isspace s)) as [t [Ht _]].
  rewrite H in Ht. simpl in Ht. now apply dropwhile_head in Ht.
Qed.

Lemma strip_keeps_head (c : ascii) (r : str) :
  isspace c = false -> exists r', strip (c :: r) = c :: r'.
Proof.
  intros Hc. unfold strip, lstrip_by, rstrip_by. simpl dropwhile at 2.
  rewrite Hc. simpl rev at 2.
  destruct (dropwhile_app_last isspace (rev r) c Hc) as [x ->].
  rewrite rev_app_distr. simpl. eauto.
Qed.

Lemma row_texts_head (table : list (list str)) :
  Forall (fun R => exists c r rest, R = (c :: r) :: rest /\ isspace c = false)
    (row_texts table).
Proof.
  unfold row_texts. apply List.Forall_forall. intros R HR.
  apply List.filter_In in HR as [HR Hne]. apply List.in_map_iff in HR as [row [<- _]].
  destruct (List.filter nonempty (map strip row)) as [|w ws] eqn:E; [discriminate|].
  assert (Hw : In w (List.filter nonempty (map strip row))) by (rewrite E; now left).
  apply List.filter_In in Hw as [Hw Hn]. apply List.in_map_iff in Hw as [cell [Hs _]].
  destruct w as [|c r]; [discriminate|].
  exists c, r, ws. split; [reflexivity|]. now apply strip_head in Hs.
Qed.

Lemma row_texts_nonempty (table : list (list str)) :
  row_texts table <> [] <->
  exists row cell, In row table /\ In cell row /\ strip cell <> [].
Proof.
  unfold row_texts. split.
  - intros H.
    destruct (List.filter _ _) as [|R Rs] eqn:E; [contradiction|].
    assert (HR : In R (R :: Rs)) by now left.
    rewrite <- E in HR. apply List.filter_In in HR as [HR Hne].
    apply List.in_map_iff in HR as [row [<- Hrow]].
    destruct (List.filter nonempty (map strip row)) as [|w ws] eqn:E'; [discriminate|].
    assert (Hw : In w (List.filter nonempty (map strip row))) by (rewrite E'; now left).
    apply List.filter_In in Hw as [Hw Hn]. apply List.in_map_iff in Hw as [cell [Hs Hc]].
    exists row, cell. repeat split; try assumption.
    rewrite Hs. now destruct w.
  - intros (row & cell & Hrow & Hcell & Hs) E.
    assert (Hin : In (List.filter nonempty (map strip row))
                    (List.filter (fun row_text : list str =>
                         match row_text with [] => false | _ => true end)
                       (map (fun row => List.filter nonempty (map strip row)) table))).
    { apply List.filter_In. split.
      - apply List.in_map_iff. now exists row.
      - assert (Hw : In (strip cell) (List.filter nonempty (map strip row))).
        { apply List.filter_In. split; [now apply List.in_map|].
          now destruct (strip cell). }
        now destruct (List.filter nonempty (map strip row)). }
    rewrite E in Hin. destruct Hin.
Qed.

Lemma join_head (sep : str) (c : ascii) (r : str) (rest : list str) :
  exists tail, join sep ((c :: r) :: rest) = c :: tail.
Proof. destruct rest; simpl; eauto. Qed.

Lemma get_table_text_kept (table : list (list str)) :
  nonempty (strip (get_table_text table)) = true <->
  exists row cell, In row table /\ In cell row /\ strip cell <> [].
Proof.
  rewrite <- row_texts_nonempty. unfold get_table_text. fold (row_texts table).
  pose proof (row_texts_head table) as Hh.
  destruct (row_texts table) as [|R Rs]; cbn [map].
  - split; [discriminate|]. now intros [].
  - split; [discriminate|]. intros _.
    inversion Hh as [|? ? (c & r & rest & -> & Hc) _].
    destruct (join_head " " c r rest) as [tail ->].
    destruct (join_head NL c tail (map (join " ") Rs)) as [tail' ->].
    now destruct (strip_keeps_head c tail' Hc) as [r' ->].
Qed.

(** X14. A block that [extract_question] returns begins with the question
    number and a dot; in particular it is never empty. *)
Theorem extract_question_starts_with_number (opened : option Document) (n : Z)
    (q : str) :
  extract_question opened n = Some q ->
  exists tail, q = decimal n ++ "." ++ tail.
Proof. apply extract_question_prefix. Qed.

Lemma extract_question_starts_with_number_witness :
  extract_question (Some table_after_empty_table) 1
  = Some ("1. Which row is right?" : str)
  /\ exists tail, ("1. Which row is right?" : str) = decimal 1 ++ "." ++ tail.
Proof.
  split; [vm_compute; reflexivity|].
  apply (extract_question_starts_with_number (Some table_after_empty_table) 1).
  vm_compute; reflexivity.
Defined.

Lemma combine_sources (doc body : Document) (content c : list (Kind * str)) :
  combine doc body content = Some c ->
  forall entry, entry ∈ c ->
    entry ∈ content \/ exists e, e ∈ doc /\ element_text e = Some entry.2.
Proof.
  revert content. induction body as [|e body IH]; intros content; simpl.
  - intros [= <-]. auto.
  - destruct e as [text|rows|].
    + destruct (paragraphs doc !! _) as [t|] eqn:E; [|discriminate].
      intros H entry Hin. destruct (IH _ H entry Hin) as [Hc|Hd]; [|now right].
      apply elem_of_app in Hc as [Hc|Hc]; [now left|].
      apply list_elem_of_singleton in Hc as ->. right.
      apply list_elem_of_lookup_2 in E. unfold paragraphs in E.
      apply list_elem_of_omap in E as (e & He & Hf).
      exists e. split; [exact He|]. destruct e; try discriminate.
      now injection Hf as ->.
    + destruct (tables doc !! _) as [t|] eqn:E; [|discriminate].
      destruct (nonempty _); [|now apply IH].
      intros H entry Hin. destruct (IH _ H entry Hin) as [Hc|Hd]; [|now right].
      apply elem_of_app in Hc as [Hc|Hc]; [now left|].
      apply list_elem_of_singleton in Hc as ->. right.
      apply list_elem_of_lookup_2 in E. unfold tables in E.
      apply list_elem_of_omap in E as (e & He & Hf).
      exists e. split; [exact He|]. destruct e; try discriminate.
      now injection Hf as ->.
    + apply IH.
Qed.

Lemma block_none (n : Z) (l : list str) :
  Forall (fun t => starts n t = false) l -> block n l = [].
Proof.
  induction 1 as [|t l Ht _ IH]; simpl; [reflexivity|]. now rewrite Ht.
Qed.

(** X15. [extract_question] never makes up a question: when no paragraph
    and no table of the document has a text that, stripped, begins with the
    number and a dot, it returns None. *)
Theorem extract_question_none_without_number (doc : Document) (n : Z) :
  (forall e t, e ∈ doc -> element_text e = Some t -> starts n (strip t) = false) ->
  extract_question (Some doc) n = None.
Proof.
  intros H. unfold extract_question.
  destruct (combine doc doc []) as [content|] eqn:E; [|reflexivity].
  rewrite capture_block, block_none; [reflexivity|].
  unfold content_texts. apply List.Forall_forall. intros t Ht.
  apply List.filter_In in Ht as [Ht _]. apply List.in_map_iff in Ht as [entry [<- Hin]].
  apply list_elem_of_In in Hin.
  destruct (combine_sources _ _ _ _ E entry Hin) as [Hc|(e & He & Hf)].
  - now apply elem_of_nil in Hc.
  - now apply (H e).
Qed.

Lemma extract_question_none_without_number_witness :
  extract_question (Some [w_p "2. second"; w_tbl [["a" : str; "1. b" : str]]; w_other]) 1
  = None.
Proof.
  apply extract_question_none_without_number. intros e t He Ht.
  repeat (apply elem_of_cons in He as [->|He]);
    try (now apply elem_of_nil in He);
    simpl in Ht; try discriminate; injection Ht as <-; reflexivity.
Defined.

(** X16. A table is put on the combined list exactly when one of its cells
    is not blank: the test [table_text.strip()] of [extract_question]
    succeeds if and only if some cell has a character that is not white
    space. *)
Theorem table_kept_iff_some_cell (table : list (list str)) :
  nonempty (strip (get_table_text table)) = true <->
  exists row cell, In row table /\ In cell row /\ strip cell <> [].
Proof. apply get_table_text_kept. Qed.

Lemma skipn_app_length {A} (d x : list A) (k : nat) :
  skipn (length d + k) (d ++ x) = skipn k x.
Proof. induction d as [|a d IH]; simpl; [reflexivity|exact IH]. Qed.

Lemma from_after_number (n : Z) (tail : str) :
  from (decimal n ++ "." ++ tail) (Z.of_nat (length (decimal n)) + 2) = skipn 1 tail.
Proof.
  unfold from.
  replace (Z.to_nat (Z.of_nat (length (decimal n)) + 2))
    with (length (decimal n) + 2)%nat by lia.
  now rewrite skipn_app_length.
Qed.

Lemma ask_question_number_range (answers : list (option Z)) (n : Z) :
  ask_question_number answers = Some n -> (1 <= n <= 20)%Z.
Proof.
  induction answers as [|[a|] answers IH]; simpl; [discriminate| |exact IH].
  destruct ((1 <=? a)%Z && (a <=? 20)%Z) eqn:E; [|exact IH].
  intros [= <-]. lia.
Qed.

Lemma file_loop_numbered (disk : Disk) (n : Z) (files : list str) (r : Summary) :
  numbered_paper disk n r -> numbered_paper disk n (file_loop disk n files r).
Proof.
  revert r. induction files as [|file files IH]; intros r Hr; [exact Hr|].
  cbn [file_loop]. destruct (disk file) as [opened|] eqn:Hd.
  - destruct (extract_question opened n) as [[|c q]|] eqn:He.
    + apply IH. exact Hr.
    + apply IH. destruct Hr as (Hc & Hl & Hq).
      destruct (extract_question_prefix _ _ _ He) as [tail Hp].
      unfold numbered_paper. cbn [question_count processed_files new_doc].
      rewrite !length_app. cbn [length]. repeat split; [lia|lia|].
      intros k f Hk.
      destruct (decide (k < length (processed_files r))%nat) as [Hlt|Hge].
      * rewrite lookup_app_l in Hk by exact Hlt.
        destruct (Hq k f Hk) as (o & t & H1 & H2 & H3 & H4).
        exists o, t. repeat split; try assumption.
        -- rewrite lookup_app_l by lia. exact H3.
        -- rewrite lookup_app_l by lia. exact H4.
      * assert (Hlen : (k < length (processed_files r ++ [file]))%nat)
          by (apply lookup_lt_is_Some; eauto).
        rewrite length_app in Hlen. cbn [length] in Hlen.
        assert (k = length (processed_files r)) as -> by lia.
        rewrite lookup_app_r in Hk by lia. rewrite Nat.sub_diag in Hk.
        injection Hk as <-.
        exists opened, tail. rewrite He, Hp, from_after_number, <- Hc.
        repeat split; [exact Hd| |].
        -- rewrite lookup_app_r by lia.
           now replace (1 + 2 * question_count r - length (new_doc r))%nat with 0%nat by lia.
        -- rewrite lookup_app_r by lia.
           now replace (2 + 2 * question_count r - length (new_doc r))%nat with 1%nat by lia.
    + apply IH. exact Hr.
  - apply IH. exact Hr.
Qed.

Lemma started_numbered (disk : Disk) (n : Z) : numbered_paper disk n (started n).
Proof.
  repeat split. intros k file H. now destruct k.
Qed.

Lemma file_loop_head (disk : Disk) (n : Z) (files : list str) (r : Summary) (b : Block) :
  new_doc r !! 0%nat = Some b -> new_doc (file_loop disk n files r) !! 0%nat = Some b.
Proof.
  revert r. induction files as [|file files IH]; intros r Hr; [exact Hr|].
  cbn [file_loop]. destruct (disk file) as [opened|].
  - destruct (extract_question opened n) as [[|c q]|]; apply IH; cbn [new_doc];
      try exact Hr.
    apply lookup_app_l_Some. exact Hr.
  - apply IH. exact Hr.
Qed.

(** X17. The paper of [create_question_paper]: its heading names a question
    number from 1 to 20; after it come two paragraphs for each processed
    file, in the order of the files. Whichever files are missing or hold no
    such question, the questions are numbered 1, 2, 3, ... without gaps: the
    k-th is the block extracted from the k-th processed file with its own
    number and dot replaced by the new number, a dot and a space, and the
    one character that followed the old dot dropped; the paragraph after it
    is empty. *)
Theorem paper_is_renumbered (disk : Disk) (answers : list (option Z)) (r : Summary) :
  create_question_paper disk answers = Some r ->
  exists n,
    (1 <= n <= 20)%Z
    /\ new_doc r !! 0%nat
       = Some (heading ("Question Paper - Questions #" ++ decimal n
                        ++ " from all files") 0)
    /\ question_count r = length (processed_files r)
    /\ length (new_doc r) = (1 + 2 * question_count r)%nat
    /\ forall k file, processed_files r !! k = Some file ->
         exists opened tail,
           disk file = Some opened
           /\ extract_question opened n = Some (decimal n ++ "." ++ tail)
           /\ new_doc r !! (1 + 2 * k)%nat
              = Some (paragraph (decimal (Z.of_nat (S k)) ++ ". " ++ skipn 1 tail))
           /\ new_doc r !! (2 + 2 * k)%nat = Some (paragraph []).
Proof.
  unfold create_question_paper.
  destruct (ask_question_number answers) as [n|] eqn:Ha; [|discriminate].
  pose proof (file_loop_numbered disk n docx_files (started n)
                (started_numbered disk n)) as Hn.
  pose proof (file_loop_head disk n docx_files (started n) _ eq_refl) as Hh.
  revert Hn Hh. generalize (file_loop disk n docx_files (started n)).
  intros r' Hn Hh [= <-]. exists n.
  split; [now apply ask_question_number_range in Ha|].
  split; [exact Hh|]. exact Hn.
Qed.

Lemma paper_is_renumbered_witness :
  create_question_paper one_file one_file_answers = Some one_file_paper
  /\ new_doc one_file_paper !! 1%nat
     = Some (paragraph ("1. hat is a-b?" ++ NL ++ "(a) 1 (b) 2"))
  /\ exists n,
    (1 <= n <= 20)%Z
    /\ new_doc one_file_paper !! 0%nat
       = Some (heading ("Question Paper - Questions #" ++ decimal n
                        ++ " from all files") 0)
    /\ question_count one_file_paper = length (processed_files one_file_paper)
    /\ length (new_doc one_file_paper) = (1 + 2 * question_count one_file_paper)%nat
    /\ forall k file, processed_files one_file_paper !! k = Some file ->
         exists opened tail,
           one_file file = Some opened
           /\ extract_question opened n = Some (decimal n ++ "." ++ tail)
           /\ new_doc one_file_paper !! (1 + 2 * k)%nat
              = Some (paragraph (decimal (Z.of_nat (S k)) ++ ". " ++ skipn 1 tail))
           /\ new_doc one_file_paper !! (2 + 2 * k)%nat = Some (paragraph []).
Proof.
  split; [vm_compute; reflexivity|]. split; [vm_compute; reflexivity|].
  apply (paper_is_renumbered one_file one_file_answers one_file_paper).
  vm_compute; reflexivity.
Defined.

Lemma extract_question_truthy (opened : option Document) (n : Z) :
  match extract_question opened n with
  | Some [] => False
  | _ => True
  end.
Proof.
  destruct (extract_question opened n) as [q|] eqn:E; [|exact I].
  destruct (extract_question_prefix _ _ _ E) as [tail ->].
  now destruct (decimal n).
Qed.

Lemma file_loop_lists (disk : Disk) (n : Z) (files : list str) (r : Summary) :
  let r' := file_loop disk n files r in
  missing_files r'
  = missing_files r ++ List.filter (fun f => negb (on_disk disk f)) files
  /\ processed_files r' = processed_files r ++ List.filter (has_question disk n) files
  /\ error_files r'
     = error_files r
       ++ map (fun f => (f, no_question))
            (List.filter (fun f => on_disk disk f && negb (has_question disk n f)) files).
Proof.
  revert r. induction files as [|file files IH]; intros r.
  - simpl. now rewrite !app_nil_r.
  - cbn [file_loop List.filter].
    assert (Hon : on_disk disk file
                  = match disk file with Some _ => true | None => false end)
      by reflexivity.
    assert (Hhas : has_question disk n file
                   = match disk file with
                     | Some opened =>
                         match extract_question opened n with
                         | Some _ => true
                         | None => false
                         end
                     | None => false
                     end) by reflexivity.
    rewrite Hon, Hhas. clear Hon Hhas.
    destruct (disk file) as [opened|] eqn:Hd; cbn [negb andb].
    + pose proof (extract_question_truthy opened n) as Ht.
      destruct (extract_question opened n) as [[|c q]|]; [destruct Ht| |];
        cbn [negb andb map]; cbv zeta;
        match goal with
        | |- context [file_loop _ _ _ ?x] =>
            pose proof (IH x) as H; cbv zeta in H; destruct H as (-> & -> & ->)
        end;
        cbn [missing_files processed_files error_files];
        repeat split; now rewrite <- ?app_assoc.
    + match goal with
      | |- context [file_loop _ _ _ ?x] =>
          pose proof (IH x) as H; cbv zeta in H; destruct H as (-> & -> & ->)
      end;
        cbn [missing_files processed_files error_files];
        repeat split; now rewrite <- ?app_assoc.
Qed.

Lemma three_way_count (disk : Disk) (n : Z) (files : list str) :
  (length (List.filter (fun f => negb (on_disk disk f)) files)
   + length (List.filter (fun f => on_disk disk f && negb (has_question disk n f)) files)
   + length (List.filter (has_question disk n) files))%nat
  = length files.
Proof.
  induction files as [|f files IH]; [reflexivity|].
  cbn [List.filter].
  assert (Hon : on_disk disk f
                = match disk f with Some _ => true | None => false end)
    by reflexivity.
  assert (Hhas : has_question disk n f
                 = match disk f with
                   | Some opened =>
                       match extract_question opened n with
                       | Some _ => true
                       | None => false
                       end
                   | None => false
                   end) by reflexivity.
  rewrite Hon, Hhas. clear Hon Hhas.
  destruct (disk f) as [opened|]; cbn [negb andb length].
  - destruct (extract_question opened n); cbn [negb andb length]; lia.
  - lia.
Qed.

(** X18. [create_question_paper] sorts the hundred files Q1.docx to
    Q100.docx into three lists, each in the order of the files: the missing
    files are those that do not exist, the processed files those from which
    [extract_question] returns a block, and the error list has every other
    file with the message that no question was found. Every file is on
    exactly one list, so the three lengths add up to 100. *)
Theorem files_are_sorted_three_ways (disk : Disk) (answers : list (option Z))
    (r : Summary) :
  create_question_paper disk answers = Some r ->
  exists n,
    ask_question_number answers = Some n
    /\ missing_files r = List.filter (fun f => negb (on_disk disk f)) docx_files
    /\ processed_files r = List.filter (has_question disk n) docx_files
    /\ error_files r
       = map (fun f => (f, no_question))
           (List.filter (fun f => on_disk disk f && negb (has_question disk n f))
              docx_files)
    /\ (length (missing_files r) + length (error_files r)
        + length (processed_files r))%nat = 100%nat.
Proof.
  unfold create_question_paper.
  destruct (ask_question_number answers) as [n|] eqn:Ha; [|discriminate].
  pose proof (file_loop_lists disk n docx_files (started n)) as Hl.
  cbv zeta in Hl. change (missing_files (started n)) with ([] : list str) in Hl.
  change (processed_files (started n)) with ([] : list str) in Hl.
  change (error_files (started n)) with ([] : list (str * str)) in Hl.
  rewrite !app_nil_l in Hl.
  pose proof (three_way_count disk n docx_files) as Hc.
  assert (H100 : length docx_files = 100%nat) by (vm_compute; reflexivity).
  rewrite H100 in Hc. clear H100.
  revert Hl Hc. generalize (file_loop disk n docx_files (started n)).
  generalize docx_files.
  intros files r' (Hm & Hp & He) Hc [= <-]. exists n. split; [reflexivity|].
  split; [exact Hm|]. split; [exact Hp|]. split; [exact He|].
  now rewrite Hm, Hp, He, length_map.
Qed.

Lemma files_are_sorted_three_ways_witness :
  processed_files one_file_paper = [("Q2.docx" : str)]
  /\ error_files one_file_paper = [("Q5.docx" : str, no_question)]
  /\ exists n,
    ask_question_number one_file_answers = Some n
    /\ missing_files one_file_paper
       = List.filter (fun f => negb (on_disk one_file f)) docx_files
    /\ processed_files one_file_paper
       = List.filter (has_question one_file n) docx_files
    /\ error_files one_file_paper
       = map (fun f => (f, no_question))
           (List.filter (fun f => on_disk one_file f && negb (has_question one_file n f))
              docx_files)
    /\ (length (missing_files one_file_paper) + length (error_files one_file_paper)
        + length (processed_files one_file_paper))%nat = 100%nat.
Proof.
  split; [vm_compute; reflexivity|]. split; [vm_compute; reflexivity|].
  apply (files_are_sorted_three_ways one_file one_file_answers one_file_paper).
  vm_compute; reflexivity.
Defined.

End QuestionPaperMore.
